(** * G3-Chat-with-MCP: streaming tool-call orchestrator and reverse RPC agent

  A shallow embedding of [backend/server.py] (the streaming orchestrator
  [smart_stream_generator]) and of [client_agent.py] (the tool registry,
  [handle_message], [agent_loop], [tool_search_emails]), and the
  properties of the specification settled against them.

  Conventions of the embedding:
  - a Python [str] is a [string], one character of the model for one
    character of the Python string; [len] is [String.length];
  - a raised exception is carried as its message, [str(e)];
  - external collaborators (the aggregator [mcp_manager], the model
    client, the socket, Outlook) are oracles over an abstract world
    state that is threaded through every call. *)

From stdpp Require Import base list strings gmap pretty.
From Stdlib Require Import ZArith Lia.

Set Warnings "-register-all".
Open Scope string_scope.
Open Scope list_scope.
Open Scope nat_scope.

(** ** Python values shared by both programs *)

Module Py.

(** The outcome of a Python call: a value, or a raised exception. *)
Inductive result (A : Type) : Type :=
| Ok (a : A)
| Raise (e : string).
Arguments Ok {A} a.
Arguments Raise {A} e.

(** Sequencing of calls that may raise. *)
Definition result_bind {A B} (r : result A) (k : A → result B) : result B :=
  match r with
  | Ok a => k a
  | Raise e => Raise e
  end.

(** A decoded JSON document, as [json.loads] returns it.  An object is
    kept as its items in insertion order. *)
Inductive json : Type :=
| JNull
| JBool (b : bool)
| JNum (z : Z)
| JStr (s : string)
| JArr (l : list json)
| JObj (items : list (string * json)).

(** [d.get(key)] on a dict given by its items. *)
Fixpoint items_get (items : list (string * json)) (key : string) : option json :=
  match items with
  | [] => None
  | (k, v) :: rest => if String.eqb k key then Some v else items_get rest key
  end.

(** [x == "lit"] for a decoded JSON value [x]. *)
Definition eq_str (x : json) (lit : string) : bool :=
  match x with
  | JStr s => String.eqb s lit
  | _ => false
  end.

(** Truthiness of an [Optional[str]]: [None] and the empty string are falsy. *)
Definition truthy (o : option string) : bool :=
  match o with
  | Some s => negb (String.eqb s "")
  | None => false
  end.

(** The text of an [Optional[str]] once it is known to be truthy. *)
Definition text_of (o : option string) : string := default "" o.

(** [l[i]] for a Python list: a negative index counts from the end, and an
    index out of range raises [IndexError]. *)
Definition index_of (len : nat) (i : Z) : option nat :=
  if (0 <=? i)%Z
  then (if (i <? Z.of_nat len)%Z then Some (Z.to_nat i) else None)
  else (if (- Z.of_nat len <=? i)%Z then Some (Z.to_nat (Z.of_nat len + i)) else None).

Definition IndexError : string := "list index out of range".

(** [f(l[i])] applied in place: [l[i]["k"] = v] and the like. *)
Definition update_item {A} (l : list A) (i : Z) (f : A → A) : result (list A) :=
  match index_of (length l) i with
  | Some n =>
      match l !! n with
      | Some x => Ok (<[n := f x]> l)
      | None => Raise IndexError
      end
  | None => Raise IndexError
  end.

Fixpoint concat_str (l : list string) : string :=
  match l with
  | [] => ""
  | s :: rest => s +:+ concat_str rest
  end.

End Py.
Export Py.

(** ** backend/server.py *)

Module Server.

(** *** Data model *)

(** [class Message(BaseModel)] *)
Record Message := {
  role : string;
  content : option string;
  tool_call_id : option string;
}.

(** [class ChatCompletionRequest(BaseModel)].  [temperature] is a float
    that is only forwarded to the model client; the model oracle below
    is arbitrary, so it is not represented. *)
Record ChatCompletionRequest := {
  model : string;
  messages : list Message;
  stream : bool;
}.

(** An entry of the aggregated tool list: a dict that may have a
    ["function"] key holding a name and, under the optional key
    ["description"], any value: a string as a rule, but also [None]
    (a JSON null) or anything else the tool server declared. *)
Record tool_function := {
  fn_name : string;
  fn_description : option json;
}.
Record tool_def := {
  tool_fn : option tool_function;
}.

(** An accumulated tool call:
    [{"id": .., "type": .., "function": {"name": .., "arguments": ..}}]. *)
Record call_function := {
  cf_name : string;
  cf_arguments : string;
}.
Record tool_call := {
  tc_id : string;
  tc_type : string;
  tc_function : call_function;
}.

(** A tool-call fragment of a streamed delta ([tc] in the source):
    its [index], its [id] and its [function] object, each of which may
    be [None]; the function object has a [name] and [arguments], each
    of which may be [None] too. *)
Record fragment_function := {
  ff_name : option string;
  ff_arguments : option string;
}.
Record fragment := {
  fr_index : option Z;
  fr_id : option string;
  fr_function : option fragment_function;
}.

(** [chunk.choices[0].delta] reads the first choice of a chunk. *)
Record delta := {
  d_tool_calls : option (list fragment);
  d_content : option string;
}.
Record chunk := {
  choices : list delta;
}.

(** The entries of the [messages] list sent to the model. *)
Inductive history_entry :=
| HRequest (role : string) (content : option string) (tool_call_id : option string)
| HSystem (content : string)
| HAssistant (tool_calls : list tool_call)
| HTool (tool_call_id : string) (content : string).

(** The event frames the generator yields.  Each is sent as
    [data: <json>] followed by a blank line; [FDone] is [data: [DONE]]. *)
Inductive frame :=
| FText (content : string)
| FToolStart (tool : string) (description : json)
| FToolEnd (result : string)
| FError (message : string)
| FChunk (dump : string)
| FDone.

(** A streamed model response: the chunks that arrive, and the
    exception that ends the iteration early, if any (a failing
    [create] call is a stream that breaks before its first chunk). *)
Record llm_stream (C : Type) := {
  chunks : list C;
  broken : option string;
}.
Arguments chunks {C} _.
Arguments broken {C} _.

(** The external collaborators, over a world state [W]. *)
Record Env (W : Type) := {
  get_all_tools_definitions : W → result (list tool_def) * W;
  create_stream : string → list history_entry → option (list tool_def) → W → llm_stream chunk * W;
  json_loads : string → result json;
  execute_tool : string → json → W → result string * W;
  create_stream2 : string → list history_entry → W → llm_stream string * W;
}.
Arguments get_all_tools_definitions {W} _.
Arguments create_stream {W} _.
Arguments json_loads {W} _.
Arguments execute_tool {W} _.
Arguments create_stream2 {W} _.

(** *** The generator monad: yielded frames, world state, exceptions *)

Definition gen (W A : Type) : Type := W → list frame * W * result A.

#[global] Instance gen_ret {W} : MRet (gen W) :=
  λ A a w, ([], w, Ok a).

#[global] Instance gen_bind {W} : MBind (gen W) :=
  λ A B k m w,
    match m w with
    | (fs, w1, Ok a) =>
        match k a w1 with
        | (fs2, w2, r) => (fs ++ fs2, w2, r)
        end
    | (fs, w1, Raise e) => (fs, w1, Raise e)
    end.

Definition yield {W} (f : frame) : gen W unit := λ w, ([f], w, Ok tt).

Definition raise {W A} (e : string) : gen W A := λ w, ([], w, Raise e).

Definition lift {W A} (r : result A) : gen W A := λ w, ([], w, r).

Definition call {W A} (f : W → result A * W) : gen W A :=
  λ w, match f w with (r, w1) => ([], w1, r) end.

Definition try_except {W A} (m : gen W A) (handler : string → gen W A) : gen W A :=
  λ w,
    match m w with
    | (fs, w1, Ok a) => (fs, w1, Ok a)
    | (fs, w1, Raise e) =>
        match handler e w1 with
        | (fs2, w2, r) => (fs ++ fs2, w2, r)
        end
    end.

(** [for x in l: st = body(x, st)] *)
Fixpoint for_each {W A S} (l : list A) (body : A → S → gen W S) (st : S) : gen W S :=
  match l with
  | [] => mret st
  | x :: rest => st1 ← body x st; for_each rest body st1
  end.

(** *** Steps 1 and 2: tool descriptions and the message list *)

(** [tool_descriptions_map]: later entries overwrite earlier ones.
    [t["function"].get("description", "")] is the value stored under
    the key, whatever it is, and the empty string only when the key is
    absent. *)
Fixpoint build_descriptions (tools : list tool_def) (m : gmap string json) : gmap string json :=
  match tools with
  | [] => m
  | t :: rest =>
      match tool_fn t with
      | Some f => build_descriptions rest (<[fn_name f := default (JStr "") (fn_description f)]> m)
      | None => build_descriptions rest m
      end
  end.

Definition default_description : string := "Executing enterprise utility function...".

Definition system_instruction : string :=
  "You are a helpful Dell Tech assistant. You have access to tools. " +:+
  "IMPORTANT: When you need to use a tool, use it DIRECTLY immediately. " +:+
  "Do NOT output conversational filler like 'Let me check that' or 'I will look for you' before calling the tool. " +:+
  "Just call the function.".

Definition NoneType_iadd : string :=
  "unsupported operand type(s) for +=: 'NoneType' and 'str'".

Definition entry_of (m : Message) : history_entry :=
  HRequest (role m) (content m) (tool_call_id m).

(** The system instruction is inserted in front, or appended to the
    content of a leading system message; [None += str] raises. *)
Definition prepare_messages (ms : list Message) : result (list history_entry) :=
  match ms with
  | [] => Ok []
  | m :: rest =>
      if negb (String.eqb (role m) "system")
      then Ok (HSystem system_instruction :: map entry_of (m :: rest))
      else
        match content m with
        | Some c =>
            Ok (HRequest (role m) (Some (c +:+ " " +:+ system_instruction)) (tool_call_id m)
                  :: map entry_of rest)
        | None => Raise NoneType_iadd
        end
  end.

(** *** Steps 3 to 5: the first round *)

Record stream_state := {
  tool_calls : list tool_call;
  text_buffer : string;
  is_tool_mode : bool;
}.

Definition initial_state : stream_state :=
  {| tool_calls := []; text_buffer := ""; is_tool_mode := false |}.

Definition placeholder : tool_call :=
  {| tc_id := ""; tc_type := "function";
     tc_function := {| cf_name := ""; cf_arguments := "" |} |}.

(** [while len(tool_calls) <= tc.index: tool_calls.append(placeholder)] *)
Fixpoint grow_loop (fuel : nat) (tcs : list tool_call) (index : Z) : list tool_call :=
  match fuel with
  | O => tcs
  | S fuel' =>
      if (Z.of_nat (length tcs) <=? index)%Z
      then grow_loop fuel' (tcs ++ [placeholder]) index
      else tcs
  end.

Definition grow (tcs : list tool_call) (index : Z) : list tool_call :=
  grow_loop (Z.to_nat (index + 1)) tcs index.

Definition set_id (v : string) (c : tool_call) : tool_call :=
  {| tc_id := v; tc_type := tc_type c; tc_function := tc_function c |}.

Definition set_name (v : string) (c : tool_call) : tool_call :=
  {| tc_id := tc_id c; tc_type := tc_type c;
     tc_function := {| cf_name := v; cf_arguments := cf_arguments (tc_function c) |} |}.

Definition add_arguments (v : string) (c : tool_call) : tool_call :=
  {| tc_id := tc_id c; tc_type := tc_type c;
     tc_function := {| cf_name := cf_name (tc_function c);
                       cf_arguments := cf_arguments (tc_function c) +:+ v |} |}.

Definition NoneType_name : string := "'NoneType' object has no attribute 'name'".

(** The body of [for tc in delta.tool_calls].  [tc.function.name] is
    read without a test on [tc.function]: when the function object is
    [None] the read raises [AttributeError], after the array has grown
    and the id has been merged. *)
Definition merge_fragment (tc : fragment) (tcs : list tool_call) : result (list tool_call) :=
  match fr_index tc with
  | None => Ok tcs
  | Some index =>
      let tcs := grow tcs index in
      result_bind
        (if truthy (fr_id tc) then update_item tcs index (set_id (text_of (fr_id tc))) else Ok tcs)
        (λ tcs,
          match fr_function tc with
          | None => Raise NoneType_name
          | Some fn =>
              result_bind
                (if truthy (ff_name fn)
                 then update_item tcs index (set_name (text_of (ff_name fn)))
                 else Ok tcs)
                (λ tcs,
                  if truthy (ff_arguments fn)
                  then update_item tcs index (add_arguments (text_of (ff_arguments fn)))
                  else Ok tcs)
          end)
  end.

Fixpoint merge_fragments (frags : list fragment) (tcs : list tool_call) : result (list tool_call) :=
  match frags with
  | [] => Ok tcs
  | tc :: rest => result_bind (merge_fragment tc tcs) (merge_fragments rest)
  end.

(** Truthiness of [delta.tool_calls]: [None] and the empty list are falsy. *)
Definition has_tool_calls (d : delta) : bool :=
  match d_tool_calls d with
  | Some (_ :: _) => true
  | _ => false
  end.

Definition FLUSH_THRESHOLD : nat := 60.

(** The body of [for chunk in stream]. *)
Definition step_chunk {W} (c : chunk) (st : stream_state) : gen W stream_state :=
  match choices c with
  | [] => raise IndexError
  | d :: _ =>
      st ← (if has_tool_calls d
            then
              let st :=
                if negb (is_tool_mode st)
                then {| tool_calls := tool_calls st; text_buffer := ""; is_tool_mode := true |}
                else st in
              tcs ← lift (merge_fragments (default [] (d_tool_calls d)) (tool_calls st));
              mret {| tool_calls := tcs; text_buffer := text_buffer st;
                      is_tool_mode := is_tool_mode st |}
            else mret st);
      if truthy (d_content d)
      then
        if is_tool_mode st
        then mret st
        else
          let buf := text_buffer st +:+ text_of (d_content d) in
          if decide (FLUSH_THRESHOLD < String.length buf)
          then
            yield (FText buf);;
            mret {| tool_calls := tool_calls st; text_buffer := "";
                    is_tool_mode := is_tool_mode st |}
          else
            mret {| tool_calls := tool_calls st; text_buffer := buf;
                    is_tool_mode := is_tool_mode st |}
      else mret st
  end.

(** Iterating a stream: its chunks in order, then the exception that
    broke it, if any. *)
Definition iterate {W C S} (s : llm_stream C) (body : C → S → gen W S) (st : S) : gen W S :=
  st ← for_each (chunks s) body st;
  match broken s with
  | Some e => raise e
  | None => mret st
  end.

(** *** Steps 6 and 7: tool execution and the second round *)

(** The body of [for tc in tool_calls]. *)
Definition process_tool_call {W} (env : Env W) (tool_descriptions_map : gmap string json)
    (tc : tool_call) (messages : list history_entry) : gen W (list history_entry) :=
  let func_name := cf_name (tc_function tc) in
  let call_id := tc_id tc in
  let desc := default (JStr default_description) (tool_descriptions_map !! func_name) in
  yield (FToolStart func_name desc);;
  try_except
    (args ← lift (json_loads env (cf_arguments (tc_function tc)));
     result_str ← call (execute_tool env func_name args);
     yield (FToolEnd result_str);;
     mret (messages ++ [HTool call_id result_str]))
    (λ err_msg,
      yield (FError err_msg);;
      mret (messages ++ [HTool call_id ("Error: " +:+ err_msg)])).

Definition open_stream {W C} (f : W → llm_stream C * W) : gen W (llm_stream C) :=
  λ w, match f w with (s, w1) => ([], w1, Ok s) end.

Definition nonempty (s : string) : bool := negb (String.eqb s "").

(** [tools if tools else None] *)
Definition tools_or_none (tools : list tool_def) : option (list tool_def) :=
  match tools with
  | [] => None
  | _ => Some tools
  end.

(** [if text_buffer and not tool_calls: yield ...] *)
Definition flush_residual {W} (st : stream_state) : gen W unit :=
  if nonempty (text_buffer st) && bool_decide (tool_calls st = [])
  then yield (FText (text_buffer st))
  else mret tt.

(** [if tool_calls: ...]: the assistant entry, every call in array
    order, then the second stream relayed chunk by chunk. *)
Definition tool_round {W} (env : Env W) (tool_descriptions_map : gmap string json)
    (model : string) (messages : list history_entry) (tcs : list tool_call) : gen W unit :=
  match tcs with
  | [] => mret tt
  | _ =>
      let messages := messages ++ [HAssistant tcs] in
      messages ← for_each tcs (process_tool_call env tool_descriptions_map) messages;
      stream2 ← open_stream (create_stream2 env model messages);
      iterate stream2 (λ c _, yield (FChunk c)) tt
  end.

(** The body of the [try] block of [smart_stream_generator]. *)
Definition generator_body {W} (env : Env W) (request : ChatCompletionRequest) : gen W unit :=
  tools ← call (get_all_tools_definitions env);
  let tool_descriptions_map := build_descriptions tools ∅ in
  messages ← lift (prepare_messages (messages request));
  stream ← open_stream (create_stream env (model request) messages (tools_or_none tools));
  st ← iterate stream step_chunk initial_state;
  flush_residual st;;
  tool_round env tool_descriptions_map (model request) messages (tool_calls st);;
  yield FDone.

Definition smart_stream_generator {W} (env : Env W) (request : ChatCompletionRequest) : gen W unit :=
  try_except (generator_body env request) (λ e, yield (FError e)).

(** The frames a run emits, in order. *)
Definition emitted {W A} (m : gen W A) (w : W) : list frame := (m w).1.1.

Definition outcome {W A} (m : gen W A) (w : W) : result A := (m w).2.

Definition world_after {W A} (m : gen W A) (w : W) : W := (m w).1.2.

(** *** Vocabulary of the properties *)

(** The content carried by the text frames of an output, in order. *)
Fixpoint text_frames (out : list frame) : list string :=
  match out with
  | [] => []
  | FText t :: rest => t :: text_frames rest
  | _ :: rest => text_frames rest
  end.

(** A chunk whose delta carries no tool-call data: no list of
    fragments, or an empty one. *)
Definition plain_text (c : chunk) : bool :=
  match choices c with
  | {| d_tool_calls := Some (_ :: _) |} :: _ => false
  | _ :: _ => true
  | [] => false
  end.

(** A chunk whose delta carries tool-call data: at least one fragment. *)
Definition tool_delta (c : chunk) : bool :=
  match choices c with
  | {| d_tool_calls := Some (_ :: _) |} :: _ => true
  | _ => false
  end.

(** The text a chunk carries: the content of its first delta, nothing
    when there is none. *)
Definition chunk_text (c : chunk) : string :=
  match choices c with
  | {| d_content := Some t |} :: _ => t
  | _ => ""
  end.

(** The tool-call fragments a chunk carries. *)
Definition chunk_fragments (c : chunk) : list fragment :=
  match choices c with
  | d :: _ => default [] (d_tool_calls d)
  | [] => []
  end.

(** The name and the arguments a fragment carries, if any. *)
Definition frag_name (f : fragment) : option string :=
  match fr_function f with
  | Some fn => ff_name fn
  | None => None
  end.

Definition frag_arguments (f : fragment) : option string :=
  match fr_function f with
  | Some fn => ff_arguments fn
  | None => None
  end.

(** A fragment that carries a function object. *)
Definition has_function (f : fragment) : bool :=
  match fr_function f with
  | Some _ => true
  | None => false
  end.

(** The last non-empty value of a sequence of optional strings. *)
Definition last_truthy (l : list (option string)) (init : string) : string :=
  fold_left (λ acc o,
               match o with
               | Some (String a t) => String a t
               | _ => acc
               end) l init.

(** The tool call a sequence of fragments for one index adds up to. *)
Definition assemble (frags : list fragment) : tool_call :=
  {| tc_id := last_truthy (map fr_id frags) "";
     tc_type := "function";
     tc_function :=
       {| cf_name := last_truthy (map frag_name frags) "";
          cf_arguments := concat_str (map (λ f, default "" (frag_arguments f)) frags) |} |}.

(** What one accumulated call comes to: the arguments are decoded, and
    only then is the tool executed. *)
Definition call_result {W} (env : Env W) (tc : tool_call) (w : W) : result string * W :=
  match json_loads env (cf_arguments (tc_function tc)) with
  | Ok args => execute_tool env (cf_name (tc_function tc)) args w
  | Raise e => (Raise e, w)
  end.

(** A computation is silent when it yields no text frame. *)
Definition silent {W A} (m : gen W A) : Prop :=
  ∀ w, text_frames (emitted m w) = [].

(** What one fragment does to the slot of its index. *)
Definition absorb_one (f : fragment) (c : tool_call) : tool_call :=
  let c := if truthy (fr_id f) then set_id (text_of (fr_id f)) c else c in
  let c := if truthy (frag_name f) then set_name (text_of (frag_name f)) c else c in
  if truthy (frag_arguments f) then add_arguments (text_of (frag_arguments f)) c else c.

Definition absorb (frags : list fragment) (c : tool_call) : tool_call :=
  fold_left (λ c f, absorb_one f c) frags c.

(** The fragments of a sequence that are addressed to slot [n]. *)
Definition for_index (n : nat) (frags : list fragment) : list fragment :=
  filter (λ f, fr_index f = Some (Z.of_nat n)) frags.

(** A fragment with no index, or with an index that is a position. *)
Definition natural_index (f : fragment) : Prop :=
  match fr_index f with
  | Some i => (0 ≤ i)%Z
  | None => True
  end.

(** A fragment from which the loop reads a function object (one with
    an index) carries one. *)
Definition function_present (f : fragment) : Prop :=
  match fr_index f with
  | Some _ => has_function f = true
  | None => True
  end.

(** The length the array must reach to hold every reported index. *)
Fixpoint reach (frags : list fragment) : nat :=
  match frags with
  | [] => 0
  | f :: rest =>
      match fr_index f with
      | Some i => Z.to_nat (i + 1) `max` reach rest
      | None => reach rest
      end
  end.

(** The frame that reports the verdict of a call, and the content of
    the tool message that records it. *)
Definition verdict_frame (r : result string) : frame :=
  match r with
  | Ok result_str => FToolEnd result_str
  | Raise err_msg => FError err_msg
  end.

Definition verdict_content (r : result string) : string :=
  match r with
  | Ok result_str => result_str
  | Raise err_msg => "Error: " +:+ err_msg
  end.

Definition start_frame (dm : gmap string json) (tc : tool_call) : frame :=
  FToolStart (cf_name (tc_function tc))
    (default (JStr default_description) (dm !! cf_name (tc_function tc))).

(** The account of a whole array of calls: for each call in array
    order a start frame, a verdict frame and one tool message. *)
Fixpoint account {W} (env : Env W) (dm : gmap string json) (tcs : list tool_call) (w : W)
    : list frame * list history_entry * W :=
  match tcs with
  | [] => ([], [], w)
  | tc :: rest =>
      match call_result env tc w with
      | (r, w1) =>
          match account env dm rest w1 with
          | (fs, hs, w2) =>
              (start_frame dm tc :: verdict_frame r :: fs,
               HTool (tc_id tc) (verdict_content r) :: hs, w2)
          end
      end
  end.


(** A computation ends with the terminator when, whenever it
    completes, the last frame it yielded is [FDone]. *)
Definition ends_done {W A} (m : gen W A) : Prop :=
  ∀ w a, outcome m w = Ok a → ∃ fs, emitted m w = fs ++ [FDone].

(** Total suppression: whenever a tool-call delta follows some plain
    text, the output has no text frame.  (Every text frame of the first
    round carries text that came before the tool-call delta: none is
    yielded once tool mode is on.) *)
Definition suppression_is_total : Prop :=
  ∀ (env : Env unit) (req : ChatCompletionRequest) (tools : list tool_def)
    (msgs : list history_entry) (s : llm_stream chunk) (pre post : list chunk) (c : chunk),
    get_all_tools_definitions env tt = (Ok tools, tt) →
    prepare_messages (messages req) = Ok msgs →
    create_stream env (model req) msgs (tools_or_none tools) tt = (s, tt) →
    chunks s = pre ++ c :: post →
    pre ≠ [] →
    Forall (λ c, plain_text c = true) pre →
    tool_delta c = true →
    text_frames (emitted (smart_stream_generator env req) tt) = [].

(** What is left of the generator once the first stream is open. *)
Definition after_open {W} (env : Env W) (req : ChatCompletionRequest)
    (tools : list tool_def) (msgs : list history_entry) (s : llm_stream chunk) : gen W unit :=
  st ← iterate s step_chunk initial_state;
  flush_residual st;;
  tool_round env (build_descriptions tools ∅) (model req) msgs (tool_calls st);;
  yield FDone.

End Server.

(** ** client_agent.py *)

Module Agent.

(** *** Email search *)

(** The attributes of an Outlook mail item that [parse_email_summary] reads. *)
Record mail_item := {
  EntryID : string;
  Subject : string;
  SenderName : string;
  ReceivedTime : string;
  Body : string;
  AttachmentsCount : Z;
}.

(** A COM item: its attributes can be read, or reading them raises. *)
Inductive com_item :=
| Readable (m : mail_item)
| Unreadable.

(** Outlook as seen by [tool_search_emails]: whether [pythoncom] was
    imported, what entering and leaving [OutlookScope] do, and the
    sorted result of [inbox.Items.Restrict(filter_str)], where getting
    [items[i]] may itself raise. *)
Record Outlook := {
  pythoncom : bool;
  CoInitialize : result unit;
  CoUninitialize : result unit;
  restrict : string → result (list (result com_item));
}.

Definition dquote : string := String (Ascii.ascii_of_nat 34) "".
Definition CR : Ascii.ascii := Ascii.ascii_of_nat 13.
Definition LF : Ascii.ascii := Ascii.ascii_of_nat 10.

(** [s.replace(c, " ")] for a single character [c]. *)
Fixpoint replace_char (c : Ascii.ascii) (s : string) : string :=
  match s with
  | EmptyString => EmptyString
  | String a rest =>
      String (if Ascii.eqb a c then Ascii.ascii_of_nat 32 else a) (replace_char c rest)
  end.

Definition parse_email_summary (msg : com_item) : json :=
  match msg with
  | Readable m =>
      JObj [("id", JStr (EntryID m));
            ("subject", JStr (Subject m));
            ("sender", JStr (SenderName m));
            ("received", JStr (ReceivedTime m));
            ("preview",
              JStr (replace_char LF (replace_char CR (String.substring 0 100 (Body m))) +:+ "..."));
            ("has_attachments", JBool (0 <? AttachmentsCount m)%Z)]
  | Unreadable => JObj [("subject", JStr "Error reading email item")]
  end.

Definition error_object (msg : string) : json := JObj [("error", JStr msg)].

Definition search_filter (query : string) : string :=
  "@SQL=" +:+ dquote +:+ "urn:schemas:httpmail:subject" +:+ dquote +:+
  " LIKE '%" +:+ query +:+ "%' " +:+
  "OR " +:+ dquote +:+ "urn:schemas:httpmail:textdescription" +:+ dquote +:+
  " LIKE '%" +:+ query +:+ "%'".

(** [for i in range(..): if i >= len(items): break; results.append(..)] *)
Fixpoint search_loop (range : list nat) (items : list (result com_item)) (results : list json)
    : result (list json) :=
  match range with
  | [] => Ok results
  | i :: rest =>
      if decide (length items ≤ i) then Ok results
      else
        match items !! i with
        | Some (Ok msg) => search_loop rest items (results ++ [parse_email_summary msg])
        | Some (Raise e) => Raise e
        | None => Raise IndexError
        end
  end.

(** [range(n)] for an integer [n]: empty when [n] is not positive. *)
Definition py_range (n : Z) : list nat := seq 0 (Z.to_nat n).

(** The body of [with OutlookScope():], whose [try] turns every
    exception into an error object. *)
Definition search_body (outlook : Outlook) (query : string) (count : Z) : json :=
  match restrict outlook (search_filter query) with
  | Raise e => error_object e
  | Ok items =>
      match search_loop (py_range (Z.min count 20)) items [] with
      | Ok results => JArr results
      | Raise e => error_object e
      end
  end.

Definition tool_search_emails (outlook : Outlook) (query : string) (count : Z) : result json :=
  if negb (pythoncom outlook) then Ok (error_object "Windows/Outlook required")
  else
    result_bind (CoInitialize outlook) (λ _,
      let value := search_body outlook query count in
      result_bind (CoUninitialize outlook) (λ _, Ok value)).

(** *** Tool registry and dispatcher *)

(** A registry entry.  [func] stands for the call of the handler with
    the keyword arguments unpacked from [args], as a whole: it is given
    the decoded [arguments] value and the world, and returns the value
    of the handler or the exception raised (by the unpacking or by the
    handler itself). *)
Record tool_entry (W : Type) := {
  func : json → W → result json * W;
  blocking : bool;
  schema : json;
}.
Arguments func {W} _.
Arguments blocking {W} _.
Arguments schema {W} _.

(** The agent: the global [TOOLS_REGISTRY], in insertion order, and the
    world its handlers act on. *)
Record agent_state (W : Type) := {
  TOOLS_REGISTRY : list (string * tool_entry W);
  world : W;
}.
Arguments TOOLS_REGISTRY {W} _.
Arguments world {W} _.

Fixpoint registry_find {W} (reg : list (string * tool_entry W)) (name : string)
    : option (tool_entry W) :=
  match reg with
  | [] => None
  | (k, t) :: rest => if String.eqb k name then Some t else registry_find rest name
  end.

(** [TOOLS_REGISTRY.get(name)]: only a string can be a key of the
    registry; a list or a dict is unhashable. *)
Definition registry_get {W} (reg : list (string * tool_entry W)) (name : json)
    : result (option (tool_entry W)) :=
  match name with
  | JStr s => Ok (registry_find reg s)
  | JArr _ => Raise "unhashable type: 'list'"
  | JObj _ => Raise "unhashable type: 'dict'"
  | _ => Ok None
  end.

Definition type_name (v : json) : string :=
  match v with
  | JNull => "NoneType"
  | JBool _ => "bool"
  | JNum _ => "int"
  | JStr _ => "str"
  | JArr _ => "list"
  | JObj _ => "dict"
  end.

Definition no_get (v : json) : string :=
  "'" +:+ type_name v +:+ "' object has no attribute 'get'".

(** What [handle_message] does with the socket: nothing (the early
    return), or one final [ws.send(payload)]. *)
Inductive reaction :=
| Silent
| Reply (payload : string).

Definition with_world {W} (st : agent_state W) (w : W) : agent_state W :=
  {| TOOLS_REGISTRY := TOOLS_REGISTRY st; world := w |}.

Section Dispatcher.
Context {W : Type}.
(** [json.dumps] and [json.loads]. *)
Variable dumps : json → string.
Variable loads : string → result json.

Definition text_content (result : json) : json :=
  JObj [("content", JArr [JObj [("type", JStr "text"); ("text", JStr (dumps result))]])].

Definition rpc_error (code : Z) (message : string) : json :=
  JObj [("code", JNum code); ("message", JStr message)].

Definition handle_message (st : agent_state W) (data : json)
    : result reaction * agent_state W :=
  match data with
  | JObj items =>
      let msg_id := default JNull (items_get items "id") in
      let method := default JNull (items_get items "method") in
      let params := default (JObj []) (items_get items "params") in
      if eq_str method "ping" || eq_str (default JNull (items_get items "result")) "pong"
      then (Ok Silent, st)
      else
        let response := [("jsonrpc", JStr "2.0"); ("id", msg_id)] in
        if eq_str method "tools/list"
        then
          let tools := JArr (map (λ t, schema t.2) (TOOLS_REGISTRY st)) in
          (Ok (Reply (dumps (JObj (response ++ [("result", JObj [("tools", tools)])])))), st)
        else if eq_str method "tools/call"
        then
          match params with
          | JObj pitems =>
              let name := default JNull (items_get pitems "name") in
              let args := default (JObj []) (items_get pitems "arguments") in
              match registry_get (TOOLS_REGISTRY st) name with
              | Raise e => (Raise e, st)
              | Ok (Some tool) =>
                  match (if blocking tool
                         then func tool args (world st)
                         else func tool args (world st)) with
                  | (Ok result, w) =>
                      (Ok (Reply (dumps (JObj (response ++ [("result", text_content result)])))),
                       with_world st w)
                  | (Raise e, w) =>
                      (Ok (Reply (dumps (JObj (response ++ [("error", rpc_error (-32000) e)])))),
                       with_world st w)
                  end
              | Ok None =>
                  (Ok (Reply (dumps (JObj (response ++ [("error", rpc_error (-32601) "Tool not found")])))),
                   st)
              end
          | other => (Raise (no_get other), st)
          end
        else (Ok (Reply (dumps (JObj response))), st)
  | other => (Raise (no_get other), st)
  end.

(** *** The connection loop *)

(** What an observer of the agent sees of the loop.  The pings of the
    heartbeat task run concurrently with it and are not part of the
    trace; only the start and the cancellation of the task are. *)
Inductive event :=
| EvConnect
| EvHeartbeatStart
| EvSend (payload : string)
| EvConnectionLost
| EvHeartbeatCancel
| EvConnectionError (e : string)
| EvSleep (seconds : nat).

(** One received message, and whether the socket still accepts the
    response to it ([ws.send] raises [ConnectionClosed] otherwise). *)
Record inbound := {
  message : string;
  send_ok : bool;
}.

(** How the iteration over the socket ends once the traffic is read:
    the server closed the connection, or the connection broke. *)
Inductive closing :=
| ServerClose
| ConnectionClosed.

(** One pass of [while True]: [websockets.connect] raises, or the
    connection is established and carries some traffic until it ends. *)
Inductive attempt :=
| ConnectFails (e : string)
| Connects (traffic : list inbound) (how : closing).

Inductive session_end :=
| Finished
| Lost
| Crashed (e : string).

(** [async for message in websocket: ...] with its [except ConnectionClosed]. *)
Fixpoint message_loop (st : agent_state W) (traffic : list inbound) (how : closing)
    : list event * session_end * agent_state W :=
  match traffic with
  | [] =>
      match how with
      | ServerClose => ([], Finished, st)
      | ConnectionClosed => ([], Lost, st)
      end
  | m :: rest =>
      match loads (message m) with
      | Raise e => ([], Crashed e, st)
      | Ok data =>
          match handle_message st data with
          | (Raise e, st1) => ([], Crashed e, st1)
          | (Ok Silent, st1) => message_loop st1 rest how
          | (Ok (Reply payload), st1) =>
              if send_ok m
              then
                match message_loop st1 rest how with
                | (evs, fin, st2) => (EvSend payload :: evs, fin, st2)
                end
              else ([], Lost, st1)
          end
      end
  end.

Definition BACKOFF : nat := 5.

(** The body of [while True] in [agent_loop]. *)
Definition connection (st : agent_state W) (a : attempt) : list event * agent_state W :=
  match a with
  | ConnectFails e => ([EvConnect; EvConnectionError e; EvSleep BACKOFF], st)
  | Connects traffic how =>
      match message_loop st traffic how with
      | (evs, Finished, st1) =>
          ([EvConnect; EvHeartbeatStart] ++ evs ++ [EvHeartbeatCancel], st1)
      | (evs, Lost, st1) =>
          ([EvConnect; EvHeartbeatStart] ++ evs ++ [EvConnectionLost; EvHeartbeatCancel], st1)
      | (evs, Crashed e, st1) =>
          ([EvConnect; EvHeartbeatStart] ++ evs
             ++ [EvHeartbeatCancel; EvConnectionError e; EvSleep BACKOFF], st1)
      end
  end.

(** [agent_loop] against a script of connection attempts: the loop has
    no exit, so it consumes every attempt it is offered. *)
Fixpoint agent_loop (st : agent_state W) (script : list attempt) : list event * agent_state W :=
  match script with
  | [] => ([], st)
  | a :: rest =>
      match connection st a with
      | (evs, st1) =>
          match agent_loop st1 rest with
          | (evs2, st2) => (evs ++ evs2, st2)
          end
      end
  end.

(** *** Vocabulary of the properties *)

(** [data] is a request envelope for [tools/call] with correlation id
    [msg_id], naming the tool [name], with arguments [args]. *)
Definition is_tools_call (data msg_id : json) (name : string) (args : json) : Prop :=
  ∃ items pitems,
    data = JObj items
    ∧ items_get items "method" = Some (JStr "tools/call")
    ∧ items_get items "result" ≠ Some (JStr "pong")
    ∧ default JNull (items_get items "id") = msg_id
    ∧ items_get items "params" = Some (JObj pitems)
    ∧ items_get pitems "name" = Some (JStr name)
    ∧ default (JObj []) (items_get pitems "arguments") = args.

(** The response objects of the wire contract, written out in full:
    an error response carries an object with the code and the message,
    a result response carries one content item of type text whose text
    is the serialized value. *)
Definition error_response (msg_id : json) (code : Z) (message : string) : json :=
  JObj [("jsonrpc", JStr "2.0"); ("id", msg_id);
        ("error", JObj [("code", JNum code); ("message", JStr message)])].

Definition result_response (msg_id : json) (result : json) : json :=
  JObj [("jsonrpc", JStr "2.0"); ("id", msg_id);
        ("result",
          JObj [("content",
                  JArr [JObj [("type", JStr "text"); ("text", JStr (dumps result))]])])].

Definition bare_response (msg_id : json) : json :=
  JObj [("jsonrpc", JStr "2.0"); ("id", msg_id)].

(** The keys of a response object. *)
Definition fields (v : json) : list string :=
  match v with
  | JObj items => map fst items
  | _ => []
  end.

(** The number of connection attempts in a trace. *)
Fixpoint connects (trace : list event) : nat :=
  match trace with
  | [] => 0
  | EvConnect :: rest => S (connects rest)
  | _ :: rest => connects rest
  end.

Definition is_sleep (ev : event) : bool :=
  match ev with
  | EvSleep _ => true
  | _ => false
  end.

(** The backoff precedes every reconnection: each connection attempt
    but the first comes right after a sleep of [BACKOFF] seconds. *)
Definition backoff_before_every_reconnect (trace : list event) : Prop :=
  ∀ pre post, trace = pre ++ EvConnect :: post → pre ≠ [] → last pre = Some (EvSleep BACKOFF).

End Dispatcher.

(** The claim as the specification words it: whatever ends a
    connection, the next attempt comes after the backoff. *)
Definition always_backs_off : Prop :=
  ∀ (dumps : json → string) (loads : string → result json)
    (st : agent_state nat) (script : list attempt),
    backoff_before_every_reconnect (agent_loop dumps loads st script).1.

End Agent.

(** ** Concrete runs *)

Module Samples.
Import Server Agent.

(** An environment over the trivial world, scripted by its answers. *)
Definition scripted (tools : result (list tool_def)) (s1 : llm_stream chunk)
    (loads : string → result json) (exec : string → json → result string)
    (s2 : llm_stream string) : Env unit :=
  {| get_all_tools_definitions := λ w, (tools, w);
     create_stream := λ _ _ _ w, (s1, w);
     json_loads := loads;
     execute_tool := λ name args w, (exec name args, w);
     create_stream2 := λ _ _ w, (s2, w) |}.

Definition text_chunk (t : string) : chunk :=
  {| choices := [{| d_tool_calls := None; d_content := Some t |}] |}.

Definition call_chunk (frags : list fragment) : chunk :=
  {| choices := [{| d_tool_calls := Some frags; d_content := None |}] |}.

Definition user_request (text : string) : ChatCompletionRequest :=
  {| model := "gpt-4o";
     messages := [{| role := "user"; content := Some text; tool_call_id := None |}];
     stream := true |}.

(** A decoder that knows the empty object only. *)
Definition loads_empty_object (s : string) : result json :=
  if String.eqb s "{}" then Ok (JObj [])
  else Raise "Expecting value: line 1 column 1 (char 0)".

Definition exec_calendar (name : string) (args : json) : result string :=
  if String.eqb name "read_calendar" then Ok "[]"
  else Raise ("Tool '" +:+ name +:+ "' not found").

Definition calendar_tools : list tool_def :=
  [{| tool_fn := Some {| fn_name := "read_calendar";
                         fn_description := Some (JStr "List calendar events.") |} |}].

Definition calendar_request : ChatCompletionRequest :=
  user_request "What's on my calendar today?".

Definition calendar_call : chunk :=
  call_chunk [{| fr_index := Some 0%Z; fr_id := Some "call_1";
                 fr_function := Some {| ff_name := Some "read_calendar"; ff_arguments := Some "{}" |} |}].

Definition whole (cs : list chunk) : llm_stream chunk :=
  {| chunks := cs; broken := None |}.

Definition final_answer : llm_stream string :=
  {| chunks := ["You have no events today."]; broken := None |}.

(** The model stream breaks after a first short delta. *)
Definition broken_stream_env : Env unit :=
  scripted (Ok calendar_tools)
    {| chunks := [text_chunk "Hello"]; broken := Some "Connection error." |}
    loads_empty_object exec_calendar final_answer.

(** 61 characters of narration, then the tool call. *)
Definition long_filler : string :=
  "Let me check your calendar for today, this will take a moment".

Definition long_filler_env : Env unit :=
  scripted (Ok calendar_tools) (whole [text_chunk long_filler; calendar_call])
    loads_empty_object exec_calendar final_answer.

(** Plain text only: 61 characters in one delta, then a short one. *)
Definition long_answer_env : Env unit :=
  scripted (Ok []) (whole [text_chunk long_filler; text_chunk " Done."])
    loads_empty_object exec_calendar final_answer.

(** A short narration, then the tool call. *)
Definition short_filler_env : Env unit :=
  scripted (Ok calendar_tools) (whole [text_chunk "Let me check that."; calendar_call])
    loads_empty_object exec_calendar final_answer.

(** Plain text only, in two deltas. *)
Definition greeting_env : Env unit :=
  scripted (Ok []) (whole [text_chunk "Hello, "; text_chunk "world."])
    loads_empty_object exec_calendar final_answer.

(** One call at index 1, delivered in two deltas. *)
Definition split_call : list chunk :=
  [call_chunk [{| fr_index := Some 1%Z; fr_id := Some "call_7";
                  fr_function := Some {| ff_name := Some "search_emails"; ff_arguments := Some "{" |} |}];
   call_chunk [{| fr_index := Some 1%Z; fr_id := None;
                  fr_function := Some {| ff_name := None; ff_arguments := Some "}" |} |}]].

(** One call at index 0 whose first delta carries the id alone, with no
    function object, and whose second delta carries the name and the
    arguments. *)
Definition id_first_call : list chunk :=
  [call_chunk [{| fr_index := Some 0%Z; fr_id := Some "call_1"; fr_function := None |}];
   call_chunk [{| fr_index := Some 0%Z; fr_id := None;
                  fr_function := Some {| ff_name := Some "read_calendar";
                                         ff_arguments := Some "{}" |} |}]].

Definition id_first_env : Env unit :=
  scripted (Ok calendar_tools) (whole id_first_call)
    loads_empty_object exec_calendar final_answer.

(** A well-formed call of the calendar tool. *)
Definition calendar_tool_call : tool_call :=
  {| tc_id := "call_1"; tc_type := "function";
     tc_function := {| cf_name := "read_calendar"; cf_arguments := "{}" |} |}.

(** A call whose arguments do not decode. *)
Definition garbled_call : tool_call :=
  {| tc_id := "call_9"; tc_type := "function";
     tc_function := {| cf_name := "read_calendar"; cf_arguments := "" |} |}.

(** A serializer for the sample runs (no escaping). *)
Fixpoint show (v : json) : string :=
  match v with
  | JNull => "null"
  | JBool b => if b then "true" else "false"
  | JNum z => pretty z
  | JStr t => dquote +:+ t +:+ dquote
  | JArr l =>
      "[" +:+
      (fix go (l : list json) : string :=
         match l with
         | [] => ""
         | [x] => show x
         | x :: rest => show x +:+ ", " +:+ go rest
         end) l +:+ "]"
  | JObj items =>
      "{" +:+
      (fix go (items : list (string * json)) : string :=
         match items with
         | [] => ""
         | [(k, x)] => dquote +:+ k +:+ dquote +:+ ": " +:+ show x
         | (k, x) :: rest => dquote +:+ k +:+ dquote +:+ ": " +:+ show x +:+ ", " +:+ go rest
         end) items +:+ "}"
  end.

Definition call_request (msg_id : Z) (name : string) : json :=
  JObj [("jsonrpc", JStr "2.0"); ("id", JNum msg_id); ("method", JStr "tools/call");
        ("params", JObj [("name", JStr name); ("arguments", JObj [])])].

Definition method_request (msg_id : Z) (method : string) : list (string * json) :=
  [("jsonrpc", JStr "2.0"); ("id", JNum msg_id); ("method", JStr method)].

(** A decoder for the sample traffic: each known payload stands for
    its decoded envelope, anything else does not decode. *)
Definition decode (payload : string) : result json :=
  if String.eqb payload "call delete_all" then Ok (call_request 7 "delete_all")
  else if String.eqb payload "call read_emails" then Ok (call_request 8 "read_emails")
  else if String.eqb payload "call send_email" then Ok (call_request 9 "send_email")
  else if String.eqb payload "resources/list" then Ok (JObj (method_request 10 "resources/list"))
  else Raise "Expecting value: line 1 column 1 (char 0)".

(** A registry whose world counts the handler calls made so far. *)
Definition laptop_registry : list (string * tool_entry nat) :=
  [("read_emails",
    {| func := λ _ w, (Ok (error_object "Windows/Outlook required"), S w);
       blocking := true;
       schema := JObj [("name", JStr "read_emails")] |});
   ("send_email",
    {| func := λ _ w, (Raise "tool_send_email() missing 1 required positional argument: 'to'", S w);
       blocking := true;
       schema := JObj [("name", JStr "send_email")] |});
   ("get_laptop_status",
    {| func := λ _ w, (Ok (JObj [("os", JStr "Linux")]), S w);
       blocking := false;
       schema := JObj [("name", JStr "get_laptop_status")] |})].

Definition laptop : agent_state nat :=
  {| TOOLS_REGISTRY := laptop_registry; world := 0 |}.

(** An inbox of 25 items that match any query. *)
Definition full_inbox : Outlook :=
  {| pythoncom := true;
     CoInitialize := Ok tt;
     CoUninitialize := Ok tt;
     restrict := λ _, Ok (replicate 25 (Ok Unreadable)) |}.

End Samples.

(** ** Properties of the orchestrator *)

Module ServerProps.
Import Server Samples.

(** *** Strings *)

Lemma length_app_str (a b : string) :
  String.length (a +:+ b) = String.length a + String.length b.
Proof. induction a as [|c a IH]; simpl; [done | by rewrite IH]. Qed.

Lemma app_cons_str (x : Ascii.ascii) (a b : string) :
  String x a +:+ b = String x (a +:+ b).
Proof. reflexivity. Qed.

Lemma app_empty_l (a : string) : "" +:+ a = a.
Proof. reflexivity. Qed.

Lemma app_assoc_str (a b c : string) : (a +:+ b) +:+ c = a +:+ (b +:+ c).
Proof. induction a as [|x a IH]; [done | by rewrite !app_cons_str, IH]. Qed.

Lemma app_empty_r (a : string) : a +:+ "" = a.
Proof. induction a as [|x a IH]; [done | by rewrite app_cons_str, IH]. Qed.

Lemma concat_str_app (l1 l2 : list string) :
  concat_str (l1 ++ l2) = concat_str l1 +:+ concat_str l2.
Proof.
  induction l1 as [|s l1 IH]; [done |].
  cbn [List.app concat_str]. by rewrite IH, app_assoc_str.
Qed.

Lemma nonempty_false (s : string) : nonempty s = false → s = "".
Proof.
  unfold nonempty. intros H. apply negb_false_iff in H. by apply String.eqb_eq.
Qed.

Lemma truthy_false_text (o : option string) : truthy o = false → text_of o = "".
Proof.
  destruct o as [s|]; simpl; [|done].
  intros H. apply negb_false_iff in H. by apply String.eqb_eq.
Qed.

(** *** The generator monad *)

Lemma emitted_bind {W A B} (m : gen W A) (k : A → gen W B) (w : W) :
  emitted (m ≫= k) w =
    emitted m w ++
      match outcome m w with
      | Ok a => emitted (k a) (world_after m w)
      | Raise _ => []
      end.
Proof.
  unfold emitted, outcome, world_after, mbind, gen_bind.
  destruct (m w) as [[fs w1] [a|e]]; simpl.
  - by destruct (k a w1) as [[fs2 w2] r].
  - by rewrite app_nil_r.
Qed.

Lemma outcome_bind {W A B} (m : gen W A) (k : A → gen W B) (w : W) :
  outcome (m ≫= k) w =
    match outcome m w with
    | Ok a => outcome (k a) (world_after m w)
    | Raise e => Raise e
    end.
Proof.
  unfold outcome, world_after, mbind, gen_bind.
  destruct (m w) as [[fs w1] [a|e]]; simpl; [|done].
  by destruct (k a w1) as [[fs2 w2] r].
Qed.

Lemma world_after_bind {W A B} (m : gen W A) (k : A → gen W B) (w : W) :
  world_after (m ≫= k) w =
    match outcome m w with
    | Ok a => world_after (k a) (world_after m w)
    | Raise e => world_after m w
    end.
Proof.
  unfold outcome, world_after, mbind, gen_bind.
  destruct (m w) as [[fs w1] [a|e]]; simpl; [|done].
  by destruct (k a w1) as [[fs2 w2] r].
Qed.

Lemma emitted_try_except {W A} (m : gen W A) (h : string → gen W A) (w : W) :
  emitted (try_except m h) w =
    emitted m w ++
      match outcome m w with
      | Ok _ => []
      | Raise e => emitted (h e) (world_after m w)
      end.
Proof.
  unfold emitted, outcome, world_after, try_except.
  destruct (m w) as [[fs w1] [a|e]]; simpl.
  - by rewrite app_nil_r.
  - by destruct (h e w1) as [[fs2 w2] r].
Qed.

Lemma text_frames_app (a b : list frame) :
  text_frames (a ++ b) = text_frames a ++ text_frames b.
Proof.
  induction a as [|f a IH]; simpl; [done |].
  destruct f; simpl; by rewrite ?IH.
Qed.

Lemma text_frames_map_FText (l : list string) : text_frames (map FText l) = l.
Proof. induction l as [|s l IH]; simpl; [done | by rewrite IH]. Qed.

(** *** The first round on plain text *)

Lemma plain_text_eq (c : chunk) :
  plain_text c = match choices c with
                 | d :: _ => negb (has_tool_calls d)
                 | [] => false
                 end.
Proof. unfold plain_text. by destruct (choices c) as [|[[[|f fs]|] t] ds]. Qed.

Lemma tool_delta_eq (c : chunk) :
  tool_delta c = match choices c with
                 | d :: _ => has_tool_calls d
                 | [] => false
                 end.
Proof. unfold tool_delta. by destruct (choices c) as [|[[[|f fs]|] t] ds]. Qed.

Lemma chunk_text_first (c : chunk) (d : delta) (ds : list delta) :
  choices c = d :: ds → chunk_text c = text_of (d_content d).
Proof. unfold chunk_text. intros ->. by destruct d as [tcs [t|]]. Qed.

(** One plain-text chunk outside tool mode: the buffer grows, and is
    flushed once it is longer than the threshold. *)
Lemma step_plain_text {W} (c : chunk) (st : stream_state) (w : W) :
  plain_text c = true →
  is_tool_mode st = false →
  String.length (text_buffer st) ≤ FLUSH_THRESHOLD →
  let buf := text_buffer st +:+ chunk_text c in
  step_chunk c st w =
    if decide (FLUSH_THRESHOLD < String.length buf)
    then ([FText buf], w,
          Ok {| tool_calls := tool_calls st; text_buffer := ""; is_tool_mode := false |})
    else ([], w,
          Ok {| tool_calls := tool_calls st; text_buffer := buf; is_tool_mode := false |}).
Proof.
  rewrite plain_text_eq. unfold step_chunk.
  destruct (choices c) as [|d ds] eqn:Hc; [done |].
  rewrite (chunk_text_first c d ds Hc).
  intros Hplain Hmode Hinv. apply negb_true_iff in Hplain.
  rewrite Hplain. cbn zeta.
  destruct st as [tcs buf md]; cbn [text_buffer is_tool_mode tool_calls] in *; subst md.
  destruct (truthy (d_content d)) eqn:Ht.
  - unfold mbind, gen_bind, mret, gen_ret. cbn -[String.append String.length FLUSH_THRESHOLD].
    by destruct (decide _).
  - rewrite (truthy_false_text _ Ht), app_empty_r.
    unfold mbind, gen_bind, mret, gen_ret. cbn -[String.append String.length FLUSH_THRESHOLD].
    destruct (decide _) as [Hlong|Hshort]; [lia | done].
Qed.

Lemma for_each_cons {W A S} (x : A) (l : list A) (body : A → S → gen W S) (st : S) (w : W) :
  for_each (x :: l) body st w =
    match body x st w with
    | (fs, w1, Ok st1) =>
        match for_each l body st1 w1 with
        | (fs2, w2, r) => (fs ++ fs2, w2, r)
        end
    | (fs, w1, Raise e) => (fs, w1, Raise e)
    end.
Proof. reflexivity. Qed.

(** A run of plain-text chunks outside tool mode: the frames are the
    over-threshold flushes, the state keeps the remainder, and no text
    is lost or invented. *)
Lemma text_round {W} (cs : list chunk) (st : stream_state) (w : W) :
  Forall (λ c, plain_text c = true) cs →
  is_tool_mode st = false →
  String.length (text_buffer st) ≤ FLUSH_THRESHOLD →
  ∃ flushed buf,
    for_each cs step_chunk st w =
      (map FText flushed, w,
       Ok {| tool_calls := tool_calls st; text_buffer := buf; is_tool_mode := false |})
    ∧ Forall (λ t, FLUSH_THRESHOLD < String.length t) flushed
    ∧ String.length buf ≤ FLUSH_THRESHOLD
    ∧ concat_str flushed +:+ buf = text_buffer st +:+ concat_str (map chunk_text cs).
Proof.
  intros Hcs. revert st. induction Hcs as [|c cs Hc _ IH]; intros st Hmode Hinv.
  - exists [], (text_buffer st). repeat split; [|done..|].
    + destruct st; simpl in *; by subst.
    + by rewrite app_empty_r.
  - rewrite for_each_cons, (step_plain_text c st w Hc Hmode Hinv). cbn zeta.
    destruct (decide _) as [Hlong|Hshort].
    + destruct (IH {| tool_calls := tool_calls st; text_buffer := ""; is_tool_mode := false |})
        as (fl & buf & -> & Hfl & Hbuf & Heq); [done | simpl; unfold FLUSH_THRESHOLD; lia |].
      exists ((text_buffer st +:+ chunk_text c) :: fl), buf.
      repeat split; [by constructor | done |].
      cbn [concat_str map text_buffer] in *.
      rewrite !app_assoc_str. rewrite Heq. done.
    + destruct (IH {| tool_calls := tool_calls st; text_buffer := text_buffer st +:+ chunk_text c;
                      is_tool_mode := false |})
        as (fl & buf & -> & Hfl & Hbuf & Heq); [done | simpl; lia |].
      exists fl, buf. repeat split; [done..|].
      cbn [concat_str map text_buffer] in *. by rewrite Heq, app_assoc_str.
Qed.

(** *** The first round in tool mode *)

(** Once in tool mode with an empty buffer, a chunk yields nothing and
    leaves the world, the mode and the buffer as they are. *)
Lemma step_tool_mode {W} (c : chunk) (st : stream_state) (w : W) :
  is_tool_mode st = true →
  text_buffer st = "" →
  ∃ r, step_chunk c st w = ([], w, r)
       ∧ ∀ st1, r = Ok st1 → is_tool_mode st1 = true ∧ text_buffer st1 = "".
Proof.
  intros Hmode Hbuf. unfold step_chunk.
  destruct (choices c) as [|d ds]; [by eexists |].
  destruct st as [tcs buf md]; cbn [text_buffer is_tool_mode tool_calls] in *; subst.
  destruct (has_tool_calls d).
  - unfold mbind, gen_bind, mret, gen_ret, lift. cbn -[merge_fragments].
    destruct (merge_fragments _ _) as [tcs1|e]; [|by eexists].
    cbn. destruct (truthy (d_content d)); cbn; eexists; (split; [done |]);
      intros st1 [= <-]; done.
  - unfold mbind, gen_bind, mret, gen_ret. cbn.
    destruct (truthy (d_content d)); cbn; eexists; (split; [done |]);
      intros st1 [= <-]; done.
Qed.

Lemma tool_mode_round {W} (cs : list chunk) (st : stream_state) (w : W) :
  is_tool_mode st = true →
  text_buffer st = "" →
  ∃ r, for_each cs step_chunk st w = ([], w, r)
       ∧ ∀ st1, r = Ok st1 → is_tool_mode st1 = true ∧ text_buffer st1 = "".
Proof.
  revert st. induction cs as [|c cs IH]; intros st Hmode Hbuf.
  - exists (Ok st). split; [done |]. by intros st1 [= <-].
  - rewrite for_each_cons.
    destruct (step_tool_mode c st w Hmode Hbuf) as (r & -> & Hr).
    destruct r as [st1|e]; [|by eexists].
    destruct (Hr st1 eq_refl) as [Hm1 Hb1].
    destruct (IH st1 Hm1 Hb1) as (r2 & -> & Hr2).
    by exists r2.
Qed.

(** The first chunk that carries tool-call data switches to tool mode
    and discards the buffer, whatever it held. *)
Lemma step_first_tool_delta {W} (c : chunk) (st : stream_state) (w : W) :
  tool_delta c = true →
  ∃ r, step_chunk c st w = ([], w, r)
       ∧ ∀ st1, r = Ok st1 → is_tool_mode st1 = true
                              ∧ (is_tool_mode st = false → text_buffer st1 = "").
Proof.
  rewrite tool_delta_eq. unfold step_chunk.
  destruct (choices c) as [|d ds]; [done |]. intros ->.
  destruct st as [tcs buf md]; cbn [text_buffer is_tool_mode tool_calls] in *.
  unfold mbind, gen_bind, mret, gen_ret, lift.
  destruct md; cbn -[merge_fragments];
    (destruct (merge_fragments _ _) as [tcs1|e]; [|by eexists]);
    cbn; destruct (truthy (d_content d)); cbn; eexists; (split; [done |]);
    intros st1 [= <-]; done.
Qed.

Lemma for_each_app {W A S} (l1 l2 : list A) (body : A → S → gen W S) (st : S) (w : W) :
  for_each (l1 ++ l2) body st w =
    match for_each l1 body st w with
    | (fs, w1, Ok st1) =>
        match for_each l2 body st1 w1 with
        | (fs2, w2, r) => (fs ++ fs2, w2, r)
        end
    | (fs, w1, Raise e) => (fs, w1, Raise e)
    end.
Proof.
  revert st w. induction l1 as [|x l1 IH]; intros st w.
  - cbn. by destruct (for_each l2 body st w) as [[fs2 w2] r].
  - cbn [List.app]. rewrite !for_each_cons.
    destruct (body x st w) as [[fs w1] [st1|e]]; [|done].
    rewrite IH.
    destruct (for_each l1 body st1 w1) as [[fs1 w1'] [st2|e]]; [|done].
    destruct (for_each l2 body st2 w1') as [[fs2 w2] r].
    by rewrite app_assoc.
Qed.

(** *** Frames of the tool round *)

Lemma process_tool_call_eq {W} (env : Env W) (dm : gmap string json)
    (tc : tool_call) (msgs : list history_entry) (w : W) :
  process_tool_call env dm tc msgs w =
    let start :=
      FToolStart (cf_name (tc_function tc))
        (default (JStr default_description) (dm !! cf_name (tc_function tc))) in
    match call_result env tc w with
    | (Ok r, w1) =>
        ([start; FToolEnd r], w1, Ok (msgs ++ [HTool (tc_id tc) r]))
    | (Raise e, w1) =>
        ([start; FError e], w1, Ok (msgs ++ [HTool (tc_id tc) ("Error: " +:+ e)]))
    end.
Proof.
  unfold process_tool_call, call_result, try_except, mbind, gen_bind, mret, gen_ret,
    yield, lift, call.
  destruct (json_loads env _) as [args|e]; [|done].
  by destruct (execute_tool env _ args w) as [[r|e] w1].
Qed.

Lemma silent_bind {W A B} (m : gen W A) (k : A → gen W B) :
  silent m → (∀ a, silent (k a)) → silent (m ≫= k).
Proof.
  intros Hm Hk w. rewrite emitted_bind, text_frames_app, Hm.
  destruct (outcome m w); [apply Hk | done].
Qed.

Lemma silent_try_except {W A} (m : gen W A) (h : string → gen W A) :
  silent m → (∀ e, silent (h e)) → silent (try_except m h).
Proof.
  intros Hm Hh w. rewrite emitted_try_except, text_frames_app, Hm.
  destruct (outcome m w); [done | apply Hh].
Qed.

Lemma silent_ret {W A} (a : A) : silent (mret a : gen W A).
Proof. done. Qed.

Lemma silent_lift {W A} (r : result A) : silent (lift r : gen W A).
Proof. done. Qed.

Lemma silent_call {W A} (f : W → result A * W) : silent (call f).
Proof. intros w. unfold emitted, call. by destruct (f w). Qed.

Lemma silent_open_stream {W C} (f : W → llm_stream C * W) : silent (open_stream f).
Proof. intros w. unfold emitted, open_stream. by destruct (f w). Qed.

Lemma silent_for_each {W A S} (l : list A) (body : A → S → gen W S) (st : S) :
  (∀ x s, silent (body x s)) → silent (for_each l body st).
Proof.
  intros Hbody. revert st. induction l as [|x l IH]; intros st; [done |].
  cbn [for_each]. apply silent_bind; auto.
Qed.

Lemma silent_iterate {W C S} (s : llm_stream C) (body : C → S → gen W S) (st : S) :
  (∀ x s, silent (body x s)) → silent (iterate s body st).
Proof.
  intros Hbody. unfold iterate. apply silent_bind; [by apply silent_for_each |].
  intros st1. by destruct (broken s).
Qed.

Lemma silent_process_tool_call {W} (env : Env W) (dm : gmap string json)
    (tc : tool_call) (msgs : list history_entry) :
  silent (process_tool_call env dm tc msgs).
Proof.
  intros w. unfold emitted. rewrite process_tool_call_eq. cbn zeta.
  by destruct (call_result env tc w) as [[r|e] w1].
Qed.

Create HintDb silence discriminated.
#[local] Hint Resolve silent_ret silent_lift silent_call silent_open_stream
  silent_process_tool_call silent_for_each silent_iterate : silence.
#[local] Hint Extern 5 (silent _) => solve [intros ?; reflexivity] : silence.

(** Applies [silent_bind] along a chain of binds and closes the links
    with the hints above. *)
Ltac silence :=
  repeat match goal with
         | |- silent (_ ≫= _) => apply silent_bind; [|intros ?]
         end;
  auto with silence.

Lemma silent_tool_round {W} (env : Env W) (dm : gmap string json) (model : string)
    (msgs : list history_entry) (tcs : list tool_call) :
  silent (tool_round env dm model msgs tcs).
Proof.
  unfold tool_round. destruct tcs as [|tc tcs]; [done |].
  cbn zeta. silence.
Qed.

(** A stream whose first tool-call delta comes after a run of plain
    text: the frames are the flushes of that run, and whatever was still
    buffered at the tool-call delta is gone from the state. *)
Lemma round_with_tool_delta {W} (pre post : list chunk) (c : chunk) (w : W) :
  Forall (λ c, plain_text c = true) pre →
  tool_delta c = true →
  ∃ flushed dropped r,
    for_each (pre ++ c :: post) step_chunk initial_state w = (map FText flushed, w, r)
    ∧ (∀ st, r = Ok st → text_buffer st = "")
    ∧ Forall (λ t, FLUSH_THRESHOLD < String.length t) flushed
    ∧ String.length dropped ≤ FLUSH_THRESHOLD
    ∧ concat_str flushed +:+ dropped = concat_str (map chunk_text pre).
Proof.
  intros Hpre Hc.
  destruct (text_round pre initial_state w Hpre eq_refl) as (fl & buf & Hrun & Hfl & Hbuf & Heq);
    [cbn; unfold FLUSH_THRESHOLD; lia |].
  cbn [text_buffer initial_state] in Heq.
  exists fl, buf.
  rewrite for_each_app, Hrun, for_each_cons.
  match goal with |- context [step_chunk c ?st w] =>
    destruct (step_first_tool_delta c st w Hc) as (r1 & -> & Hr1) end.
  destruct r1 as [st1|e].
  - destruct (Hr1 st1 eq_refl) as [Hm1 Hb1]. specialize (Hb1 eq_refl).
    destruct (tool_mode_round post st1 w Hm1 Hb1) as (r2 & -> & Hr2).
    exists r2. rewrite !app_nil_r. repeat split; try done.
    intros st Hst. by destruct (Hr2 st Hst).
  - exists (Raise e). rewrite app_nil_r. repeat split; done.
Qed.

Lemma silent_flush_empty {W} (st : stream_state) :
  text_buffer st = "" → silent (flush_residual st : gen W unit).
Proof. intros Hb w. unfold flush_residual. by rewrite Hb. Qed.

(** *** Reassembly of tool-call fragments *)

Lemma grow_loop_spec (fuel : nat) (tcs : list tool_call) (n : nat) :
  S n - length tcs ≤ fuel →
  grow_loop fuel tcs (Z.of_nat n) = tcs ++ replicate (S n - length tcs) placeholder.
Proof.
  revert tcs. induction fuel as [|fuel IH]; intros tcs Hfuel; cbn [grow_loop].
  - replace (S n - length tcs) with 0 by lia. by rewrite app_nil_r.
  - destruct (Z.leb_spec (Z.of_nat (length tcs)) (Z.of_nat n)) as [Hle|Hgt].
    + rewrite IH by (rewrite length_app; cbn; lia).
      rewrite length_app. cbn [length].
      replace (S n - length tcs) with (S (n - length tcs)) by lia.
      replace (S n - (length tcs + 1)) with (n - length tcs) by lia.
      by rewrite <- app_assoc.
    + replace (S n - length tcs) with 0 by lia. by rewrite app_nil_r.
Qed.

(** The loop has fuel enough to reach the index, and pads with placeholders. *)
Lemma grow_spec (tcs : list tool_call) (n : nat) :
  grow tcs (Z.of_nat n) = tcs ++ replicate (S n - length tcs) placeholder.
Proof. unfold grow. apply grow_loop_spec. lia. Qed.

Lemma index_of_nat (len n : nat) : n < len → index_of len (Z.of_nat n) = Some n.
Proof.
  intros Hn. unfold index_of.
  destruct (Z.leb_spec 0 (Z.of_nat n)); [|lia].
  destruct (Z.ltb_spec (Z.of_nat n) (Z.of_nat len)); [|lia].
  by rewrite Nat2Z.id.
Qed.

Lemma update_item_alter {A} (l : list A) (n : nat) (f : A → A) :
  n < length l → update_item l (Z.of_nat n) f = Ok (alter f n l).
Proof.
  intros Hn. unfold update_item. rewrite index_of_nat by done.
  destruct (lookup_lt_is_Some_2 l n Hn) as [x Hx]. rewrite Hx. f_equal.
  apply list_eq. intros j. destruct (decide (n = j)) as [<-|Hne].
  - by rewrite list_lookup_insert_eq, list_lookup_alter_eq, Hx.
  - by rewrite list_lookup_insert_ne, list_lookup_alter_ne.
Qed.

Lemma merge_fragment_at (f : fragment) (tcs : list tool_call) (n : nat) :
  fr_index f = Some (Z.of_nat n) →
  has_function f = true →
  n < length tcs →
  merge_fragment f tcs = Ok (alter (absorb_one f) n tcs).
Proof.
  intros Hidx Hfn Hn. unfold merge_fragment. rewrite Hidx, grow_spec.
  replace (S n - length tcs) with 0 by lia. cbn [replicate]. rewrite app_nil_r.
  unfold absorb_one, result_bind, frag_name, frag_arguments, has_function in *.
  destruct (fr_function f) as [fn|]; [|done].
  destruct (truthy (fr_id f)), (truthy (ff_name fn)), (truthy (ff_arguments fn));
    rewrite ?update_item_alter by (rewrite ?length_alter; done);
    rewrite ?update_item_alter by (rewrite ?length_alter; done);
    rewrite ?update_item_alter by (rewrite ?length_alter; done);
    rewrite ?list_alter_alter_eq; try done.
  by rewrite list_alter_id.
Qed.

Lemma merge_fragment_grow (f : fragment) (tcs : list tool_call) (n : nat) :
  fr_index f = Some (Z.of_nat n) →
  merge_fragment f tcs =
    merge_fragment f (tcs ++ replicate (S n - length tcs) placeholder).
Proof.
  intros Hidx. unfold merge_fragment. rewrite Hidx, !grow_spec.
  rewrite length_app, length_replicate.
  replace (S n - (length tcs + (S n - length tcs))) with 0 by lia.
  cbn [replicate]. by rewrite app_nil_r.
Qed.

(** A fragment with an index and no function object: the array grows,
    the id is merged, and reading the name raises. *)
Lemma merge_fragment_no_function (f : fragment) (tcs : list tool_call) (n : nat) :
  fr_index f = Some (Z.of_nat n) →
  fr_function f = None →
  merge_fragment f tcs = Raise NoneType_name.
Proof.
  intros Hidx Hfn. unfold merge_fragment. rewrite Hidx, Hfn, grow_spec.
  destruct (truthy (fr_id f)); [|done].
  rewrite update_item_alter; [done |].
  rewrite length_app, length_replicate. lia.
Qed.

Lemma merge_same_index (frags : list fragment) (tcs : list tool_call) (n : nat) :
  Forall (λ f, fr_index f = Some (Z.of_nat n) ∧ has_function f = true) frags →
  n < length tcs →
  merge_fragments frags tcs = Ok (alter (absorb frags) n tcs).
Proof.
  intros Hall. revert tcs. induction Hall as [|f frags [Hf Hfn] _ IH]; intros tcs Hn.
  - cbn. by rewrite list_alter_id.
  - cbn [merge_fragments]. rewrite (merge_fragment_at f tcs n Hf Hfn Hn). cbn [result_bind].
    rewrite IH by (by rewrite length_alter).
    by rewrite list_alter_alter_eq.
Qed.

Lemma merge_fragments_app (a b : list fragment) (tcs : list tool_call) :
  merge_fragments (a ++ b) tcs = result_bind (merge_fragments a tcs) (merge_fragments b).
Proof.
  revert tcs. induction a as [|f a IH]; intros tcs; [done |].
  cbn [List.app merge_fragments].
  destruct (merge_fragment f tcs) as [tcs1|e]; cbn [result_bind]; [apply IH | done].
Qed.

Lemma last_truthy_step (o : option string) (acc : string) :
  match o with
  | Some (String a t) => String a t
  | _ => acc
  end = if truthy o then text_of o else acc.
Proof. by destruct o as [[|a t]|]. Qed.

Lemma last_truthy_snoc (l : list (option string)) (o : option string) (init : string) :
  last_truthy (l ++ [o]) init =
    if truthy o then text_of o else last_truthy l init.
Proof. unfold last_truthy. rewrite fold_left_app. cbn [fold_left]. apply last_truthy_step. Qed.

(** The slot a run of fragments leaves behind, field by field. *)
Lemma absorb_fields (frags : list fragment) (c : tool_call) :
  absorb frags c =
    {| tc_id := last_truthy (map fr_id frags) (tc_id c);
       tc_type := tc_type c;
       tc_function :=
         {| cf_name := last_truthy (map frag_name frags) (cf_name (tc_function c));
            cf_arguments :=
              cf_arguments (tc_function c)
                +:+ concat_str (map (λ f, default "" (frag_arguments f)) frags) |} |}.
Proof.
  revert c. induction frags as [|f frags IH]; intros c.
  - destruct c as [i t [nm a]]. cbn. by rewrite app_empty_r.
  - unfold absorb in *. cbn [fold_left]. rewrite IH. clear IH.
    unfold last_truthy. cbn [map fold_left concat_str].
    rewrite !last_truthy_step.
    change (default "" (frag_arguments f)) with (text_of (frag_arguments f)).
    destruct c as [i t [nm a]]. unfold absorb_one.
    destruct (truthy (fr_id f)), (truthy (frag_name f)), (truthy (frag_arguments f)) eqn:Ha;
      cbn [set_id set_name add_arguments tc_id tc_type tc_function cf_name cf_arguments];
      rewrite ?app_assoc_str; try done;
      by rewrite (truthy_false_text _ Ha), app_empty_l.
Qed.

Lemma absorb_placeholder (frags : list fragment) : absorb frags placeholder = assemble frags.
Proof. rewrite absorb_fields. unfold assemble, placeholder. cbn. by rewrite app_empty_l. Qed.

Lemma merge_same_index_fresh (frags : list fragment) (n : nat) :
  frags ≠ [] →
  Forall (λ f, fr_index f = Some (Z.of_nat n) ∧ has_function f = true) frags →
  merge_fragments frags [] = Ok (replicate n placeholder ++ [assemble frags]).
Proof.
  intros Hne Hall. destruct frags as [|f frags]; [done |].
  apply Forall_cons in Hall as [[Hf Hfn] Hall].
  cbn [merge_fragments]. rewrite (merge_fragment_grow f [] n Hf).
  cbn [length List.app]. rewrite Nat.sub_0_r.
  rewrite (merge_fragment_at f _ n Hf Hfn) by (rewrite length_replicate; lia).
  cbn [result_bind].
  rewrite (merge_same_index frags _ n Hall) by (rewrite length_alter, length_replicate; lia).
  rewrite list_alter_alter_eq, replicate_S_end. f_equal.
  rewrite alter_app_r_alt by (rewrite length_replicate; lia).
  rewrite length_replicate, Nat.sub_diag. cbn [alter list_alter]. do 2 f_equal.
  by rewrite <- absorb_placeholder.
Qed.

Lemma merge_fragment_natural (f : fragment) (tcs : list tool_call) (m : nat) :
  fr_index f = Some (Z.of_nat m) →
  has_function f = true →
  merge_fragment f tcs =
    Ok (alter (absorb_one f) m (tcs ++ replicate (S m - length tcs) placeholder)).
Proof.
  intros Hidx Hfn. rewrite (merge_fragment_grow f tcs m Hidx).
  apply merge_fragment_at; [done | done |]. rewrite length_app, length_replicate. lia.
Qed.

Lemma placeholder_padding (tcs : list tool_call) (k n : nat) :
  default placeholder ((tcs ++ replicate k placeholder) !! n) = default placeholder (tcs !! n).
Proof.
  destruct (decide (n < length tcs)) as [Hlt|Hge].
  - by rewrite lookup_app_l.
  - rewrite lookup_app_r by lia. rewrite (lookup_ge_None_2 tcs n) by lia.
    destruct (replicate k placeholder !! (n - length tcs)) as [x|] eqn:Hx; [|done].
    by apply lookup_replicate_1 in Hx as [-> _].
Qed.

Lemma absorb_cons (f : fragment) (frags : list fragment) (c : tool_call) :
  absorb (f :: frags) c = absorb frags (absorb_one f c).
Proof. reflexivity. Qed.

(** Fragments for several indices, in any interleaving: every slot ends
    up holding what the fragments addressed to it add up to, in arrival
    order, on top of what the slot held before (the placeholder for a
    slot that did not exist). *)
Lemma merge_interleaved (frags : list fragment) (tcs : list tool_call) :
  Forall natural_index frags →
  Forall function_present frags →
  ∃ tcs1,
    merge_fragments frags tcs = Ok tcs1
    ∧ length tcs1 = length tcs `max` reach frags
    ∧ ∀ n, n < length tcs1 →
        tcs1 !! n = Some (absorb (for_index n frags) (default placeholder (tcs !! n))).
Proof.
  intros Hall. revert tcs. induction Hall as [|f frags Hf _ IH]; intros tcs Hfns.
  - exists tcs. cbn [merge_fragments reach]. split; [done |]. split; [lia |].
    intros n Hn. destruct (lookup_lt_is_Some_2 tcs n Hn) as [x Hx]. by rewrite Hx.
  - apply Forall_cons in Hfns as [Hfn Hfns].
    unfold natural_index in Hf. unfold function_present in Hfn. cbn [merge_fragments reach].
    destruct (fr_index f) as [i|] eqn:Hidx.
    + set (m := Z.to_nat i). assert (Hi : i = Z.of_nat m) by (subst m; lia).
      rewrite Hi in Hidx. rewrite (merge_fragment_natural f tcs m Hidx Hfn). cbn [result_bind].
      set (grown := tcs ++ replicate (S m - length tcs) placeholder).
      assert (Hgrown : length grown = length tcs `max` S m)
        by (subst grown; rewrite length_app, length_replicate; lia).
      destruct (IH (alter (absorb_one f) m grown) Hfns) as (tcs1 & -> & Hlen & Hslots).
      rewrite length_alter, Hgrown in Hlen.
      exists tcs1. split; [done |]. split; [subst m; lia |].
      intros n Hn. rewrite (Hslots n Hn). f_equal. unfold for_index.
      destruct (decide (n = m)) as [->|Hne].
      * rewrite filter_cons_True by done. rewrite absorb_cons. f_equal.
        rewrite list_lookup_alter_eq.
        destruct (lookup_lt_is_Some_2 grown m ltac:(lia)) as [x Hx]. rewrite Hx. cbn.
        f_equal. change x with (default placeholder (Some x)). rewrite <- Hx.
        apply placeholder_padding.
      * rewrite filter_cons_False by (rewrite Hidx; intros [= Heq]; lia).
        rewrite list_lookup_alter_ne by done. f_equal. apply placeholder_padding.
    + unfold merge_fragment. rewrite Hidx. cbn [result_bind].
      destruct (IH tcs Hfns) as (tcs1 & -> & Hlen & Hslots).
      exists tcs1. split; [done |]. split; [done |].
      intros n Hn. rewrite (Hslots n Hn). unfold for_index.
      by rewrite filter_cons_False by (by rewrite Hidx).
Qed.

Lemma step_tool_delta_eq {W} (c : chunk) (st : stream_state) (w : W) (tcs : list tool_call) :
  tool_delta c = true →
  merge_fragments (chunk_fragments c) (tool_calls st) = Ok tcs →
  ∃ buf, step_chunk c st w =
           ([], w, Ok {| tool_calls := tcs; text_buffer := buf; is_tool_mode := true |}).
Proof.
  rewrite tool_delta_eq. unfold chunk_fragments, step_chunk.
  destruct (choices c) as [|d ds]; [done |]. intros -> Hmerge.
  destruct st as [tcs0 buf md]; cbn [text_buffer is_tool_mode tool_calls] in *.
  unfold mbind, gen_bind, mret, gen_ret, lift.
  destruct md; cbn -[merge_fragments]; rewrite Hmerge; cbn;
    destruct (truthy (d_content d)); cbn; by eexists.
Qed.

Lemma tool_deltas_round {W} (cs : list chunk) (st : stream_state) (w : W) (tcs : list tool_call) :
  cs ≠ [] →
  Forall (λ c, tool_delta c = true) cs →
  merge_fragments (concat (map chunk_fragments cs)) (tool_calls st) = Ok tcs →
  ∃ buf, for_each cs step_chunk st w =
           ([], w, Ok {| tool_calls := tcs; text_buffer := buf; is_tool_mode := true |}).
Proof.
  intros Hne Hall. revert st. induction Hall as [|c cs Hc Hall IH]; intros st Hmerge; [done |].
  cbn [map concat] in Hmerge. rewrite merge_fragments_app in Hmerge.
  destruct (merge_fragments (chunk_fragments c) (tool_calls st)) as [tcs1|e] eqn:H1; [|done].
  cbn [result_bind] in Hmerge.
  destruct (step_tool_delta_eq c st w tcs1 Hc H1) as [buf1 Hstep].
  rewrite for_each_cons, Hstep.
  destruct cs as [|c2 cs].
  - cbn in Hmerge. injection Hmerge as <-. by exists buf1.
  - destruct (IH ltac:(done) {| tool_calls := tcs1; text_buffer := buf1; is_tool_mode := true |}
                Hmerge) as [buf ->].
    by exists buf.
Qed.

(** Tool-call deltas that all carry fragments for one index, each with
    a function object, taken in arrival order from the initial state,
    leave an array in which every slot below the index is the empty
    placeholder of type function and the slot at the index has the
    concatenated arguments and the last non-empty id and name. *)
Theorem same_index_fragments_reassembled {W} (cs : list chunk) (n : nat) (w : W) :
  cs ≠ [] →
  Forall (λ c, tool_delta c = true
               ∧ Forall (λ f, fr_index f = Some (Z.of_nat n) ∧ has_function f = true)
                   (chunk_fragments c)) cs →
  let frags := concat (map chunk_fragments cs) in
  ∃ st,
    for_each cs step_chunk initial_state w = ([], w, Ok st)
    ∧ tool_calls st = replicate n placeholder ++ [assemble frags]
    ∧ tool_calls st !! n =
        Some {| tc_id := last_truthy (map fr_id frags) "";
                tc_type := "function";
                tc_function :=
                  {| cf_name := last_truthy (map frag_name frags) "";
                     cf_arguments :=
                       concat_str (map (λ f, default "" (frag_arguments f)) frags) |} |}
    ∧ ∀ j, j < n → tool_calls st !! j = Some placeholder.
Proof.
  intros Hne Hall frags.
  assert (Hdelta : Forall (λ c, tool_delta c = true) cs)
    by (eapply Forall_impl; [exact Hall | by intros c [? ?]]).
  assert (Hidx : Forall (λ f, fr_index f = Some (Z.of_nat n) ∧ has_function f = true) frags).
  { subst frags. clear Hne Hdelta. induction Hall as [|c cs [_ Hc] _ IH]; cbn; [done |].
    by apply Forall_app. }
  assert (Hfr : frags ≠ []).
  { subst frags. destruct cs as [|c cs]; [done |].
    apply Forall_cons in Hdelta as [Hc _]. rewrite tool_delta_eq in Hc.
    unfold chunk_fragments in *.
    cbn [map concat]. destruct (choices c) as [|d ds]; [done |].
    unfold has_tool_calls in Hc. by destruct (d_tool_calls d) as [[|f fs]|]. }
  destruct (tool_deltas_round cs initial_state w _ Hne Hdelta
              (merge_same_index_fresh frags n Hfr Hidx)) as [buf Hrun].
  eexists. split; [exact Hrun |]. cbn [tool_calls].
  split; [done |]. split.
  - rewrite lookup_app_r by (by rewrite length_replicate).
    by rewrite length_replicate, Nat.sub_diag.
  - intros j Hj. rewrite lookup_app_l by (by rewrite length_replicate).
    by apply lookup_replicate_2.
Qed.

(** Tool-call deltas for any indices, interleaved in any way, whose
    indexed fragments carry a function object: every slot of the array
    is reassembled from the fragments of its index. *)
Lemma interleaved_fragments_reassembled {W} (cs : list chunk) (w : W) :
  cs ≠ [] →
  Forall (λ c, tool_delta c = true) cs →
  Forall natural_index (concat (map chunk_fragments cs)) →
  Forall function_present (concat (map chunk_fragments cs)) →
  ∃ st,
    for_each cs step_chunk initial_state w = ([], w, Ok st)
    ∧ length (tool_calls st) = reach (concat (map chunk_fragments cs))
    ∧ ∀ n, n < length (tool_calls st) →
        tool_calls st !! n = Some (assemble (for_index n (concat (map chunk_fragments cs)))).
Proof.
  intros Hne Hdelta Hnat Hfns.
  destruct (merge_interleaved _ [] Hnat Hfns) as (tcs1 & Hmerge & Hlen & Hslots).
  destruct (tool_deltas_round cs initial_state w tcs1 Hne Hdelta Hmerge) as [buf Hrun].
  eexists. split; [exact Hrun |]. cbn [tool_calls]. split; [by rewrite Hlen |].
  intros n Hn. rewrite (Hslots n Hn). cbn [default]. by rewrite absorb_placeholder.
Qed.

(** *** Tool execution *)


Lemma tool_loop_account {W} (env : Env W) (dm : gmap string json)
    (tcs : list tool_call) (msgs : list history_entry) (w : W) :
  for_each tcs (process_tool_call env dm) msgs w =
    match account env dm tcs w with
    | (fs, hs, w1) => (fs, w1, Ok (msgs ++ hs))
    end.
Proof.
  revert msgs w. induction tcs as [|tc tcs IH]; intros msgs w.
  - cbn. by rewrite app_nil_r.
  - rewrite for_each_cons, process_tool_call_eq. cbn [account]. cbn zeta.
    fold (start_frame dm tc).
    destruct (call_result env tc w) as [[r|e] w1]; rewrite IH;
      destruct (account env dm tcs w1) as [[fs hs] w2];
      cbn [verdict_frame verdict_content List.app]; by rewrite <- app_assoc.
Qed.


(** *** The last frame of a run *)

Lemma ends_done_bind {W A B} (m : gen W A) (k : A → gen W B) :
  (∀ a, ends_done (k a)) → ends_done (m ≫= k).
Proof.
  intros Hk w b. rewrite outcome_bind, emitted_bind.
  destruct (outcome m w) as [a|e]; [|done].
  intros Hb. destruct (Hk a _ _ Hb) as [fs ->].
  exists (emitted m w ++ fs). by rewrite app_assoc.
Qed.

Lemma ends_done_generator_body {W} (env : Env W) (req : ChatCompletionRequest) :
  ends_done (generator_body env req).
Proof.
  unfold generator_body. do 6 (apply ends_done_bind; intros ?).
  intros w0 u _. by exists [].
Qed.

(** The last frame of every run: the terminator when the body
    completes, the error frame when an exception escapes it. *)
Lemma last_frame_of_run {W} (env : Env W) (req : ChatCompletionRequest) (w : W) :
  last (emitted (smart_stream_generator env req) w) =
    match outcome (generator_body env req) w with
    | Ok _ => Some FDone
    | Raise e => Some (FError e)
    end.
Proof.
  unfold smart_stream_generator. rewrite emitted_try_except.
  destruct (outcome (generator_body env req) w) as [a|e] eqn:Hout.
  - destruct (ends_done_generator_body env req w a Hout) as [fs ->].
    by rewrite app_nil_r, last_snoc.
  - unfold emitted at 2, yield. cbn [fst]. by rewrite last_snoc.
Qed.

(** *** Runs that reach the first round *)

Section FirstRound.
Context {W : Type} (env : Env W) (req : ChatCompletionRequest).
Context (w w1 w2 : W) (tools : list tool_def) (msgs : list history_entry).
Context (s : llm_stream chunk).
Hypothesis Htools : get_all_tools_definitions env w = (Ok tools, w1).
Hypothesis Hprep : prepare_messages (messages req) = Ok msgs.
Hypothesis Hstream :
  create_stream env (model req) msgs (tools_or_none tools) w1 = (s, w2).

Local Abbreviation after_open := (Server.after_open env req tools msgs s).

Lemma generator_body_from_stream : generator_body env req w = after_open w2.
Proof using Htools Hprep Hstream.
  unfold generator_body.
  unfold mbind at 1, gen_bind at 1, call. rewrite Htools.
  unfold mbind at 1, gen_bind at 1, lift. rewrite Hprep.
  unfold mbind at 1, gen_bind at 1, open_stream. rewrite Hstream.
  fold after_open. by destruct (after_open w2) as [[fs w3] r].
Qed.

Lemma emitted_from_stream :
  emitted (smart_stream_generator env req) w =
    emitted (try_except after_open (λ e, yield (FError e))) w2.
Proof using Htools Hprep Hstream.
  unfold smart_stream_generator, emitted, try_except.
  by rewrite generator_body_from_stream.
Qed.

Lemma emitted_iterate (r : result stream_state) (fs : list frame) :
  for_each (chunks s) step_chunk initial_state w2 = (fs, w2, r) →
  emitted (iterate s step_chunk initial_state) w2 = fs
  ∧ world_after (iterate s step_chunk initial_state) w2 = w2
  ∧ outcome (iterate s step_chunk initial_state) w2 =
      match r with
      | Ok st => match broken s with Some e => Raise e | None => Ok st end
      | Raise e => Raise e
      end.
Proof.
  intros Hrun. unfold iterate, emitted, world_after, outcome, mbind, gen_bind.
  rewrite Hrun. destruct r as [st|e]; [|done].
  destruct (broken s); cbn; by rewrite app_nil_r.
Qed.

(** C4: a stream of plain-text deltas only comes out as its
    over-threshold flushes (each longer than 60 characters), at most
    one trailing flush of the non-empty remainder (of at most 60
    characters), and the terminator; the text frames concatenate to
    the concatenation of the content of the deltas. *)
Theorem C4_text_only_stream :
  broken s = None →
  Forall (λ c, plain_text c = true) (chunks s) →
  ∃ flushed rest,
    emitted (smart_stream_generator env req) w =
      map FText flushed ++ (if decide (rest = "") then [] else [FText rest]) ++ [FDone]
    ∧ Forall (λ t, 60 < String.length t) flushed
    ∧ String.length rest ≤ 60
    ∧ concat_str (text_frames (emitted (smart_stream_generator env req) w))
      = concat_str (map chunk_text (chunks s)).
Proof using Htools Hprep Hstream.
  intros Hbroken Hplain.
  destruct (text_round (chunks s) initial_state w2 Hplain eq_refl)
    as (fl & buf & Hrun & Hfl & Hbuf & Heq); [cbn; unfold FLUSH_THRESHOLD; lia |].
  cbn [text_buffer tool_calls initial_state] in Hrun, Heq. rewrite app_empty_l in Heq.
  destruct (emitted_iterate _ _ Hrun) as (Hem & Hw & Hout). rewrite Hbroken in Hout.
  assert (Hall : emitted (smart_stream_generator env req) w =
            map FText fl ++ (if nonempty buf then [FText buf] else []) ++ [FDone]).
  { rewrite emitted_from_stream, emitted_try_except. unfold after_open.
    rewrite outcome_bind, emitted_bind, Hem, Hout, Hw.
    unfold flush_residual. cbn [text_buffer tool_calls].
    destruct (nonempty buf); cbn; by rewrite ?app_nil_r. }
  exists fl, buf. split; [|split; [exact Hfl |split; [exact Hbuf |]]].
  { rewrite Hall. do 2 f_equal. unfold nonempty.
    destruct (decide (buf = "")) as [->|Hne]; [done |].
    apply String.eqb_neq in Hne. by rewrite Hne. }
  rewrite Hall, !text_frames_app, text_frames_map_FText, concat_str_app.
  rewrite <- Heq. f_equal.
  destruct (nonempty buf) eqn:Hne; cbn.
  - by rewrite app_empty_r.
  - by rewrite (nonempty_false _ Hne).
Qed.

(** C2 (amended): when the first tool-call delta follows a run of plain
    text, the text frames of the whole output are exactly the
    over-threshold flushes made before it; the text still buffered at
    that delta (at most 60 characters) is discarded and reaches no
    frame.  With at most 60 characters of preceding text there is no
    text frame at all. *)
Theorem C2_buffered_filler_suppressed (pre post : list chunk) (c : chunk) :
  chunks s = pre ++ c :: post →
  Forall (λ c, plain_text c = true) pre →
  tool_delta c = true →
  ∃ flushed dropped,
    text_frames (emitted (smart_stream_generator env req) w) = flushed
    ∧ Forall (λ t, FLUSH_THRESHOLD < String.length t) flushed
    ∧ String.length dropped ≤ FLUSH_THRESHOLD
    ∧ concat_str flushed +:+ dropped = concat_str (map chunk_text pre)
    ∧ (String.length (concat_str (map chunk_text pre)) ≤ FLUSH_THRESHOLD → flushed = []).
Proof using Htools Hprep Hstream.
  intros Hs Hpre Hc.
  destruct (round_with_tool_delta pre post c w2 Hpre Hc)
    as (fl & dropped & r & Hrun & Hr & Hfl & Hdrop & Heq).
  rewrite <- Hs in Hrun.
  destruct (emitted_iterate _ _ Hrun) as (Hem & Hw & Hout).
  exists fl, dropped. repeat split; try done.
  - rewrite emitted_from_stream, emitted_try_except, text_frames_app. unfold after_open.
    rewrite outcome_bind, emitted_bind, text_frames_app, Hem, Hout, Hw, text_frames_map_FText.
    destruct r as [st|e]; [|by rewrite !app_nil_r].
    destruct (broken s) as [e|]; [by rewrite !app_nil_r |].
    assert (Hsil : silent (flush_residual st;;
                     tool_round env (build_descriptions tools ∅) (model req) msgs (tool_calls st);;
                     yield FDone : gen W unit)).
    { pose proof (silent_flush_empty (W := W) st (Hr st eq_refl)).
      pose proof (silent_tool_round env (build_descriptions tools ∅) (model req) msgs
                    (tool_calls st)).
      silence. }
    rewrite (Hsil w2).
    match goal with |- context [text_frames (match ?o with Ok _ => _ | Raise _ => _ end)] =>
      destruct o end; by rewrite !app_nil_r.
  - intros Hshort. destruct fl as [|t fl]; [done |].
    apply Forall_cons in Hfl as [Ht _].
    rewrite <- Heq in Hshort. cbn [concat_str] in Hshort.
    rewrite !length_app_str in Hshort. lia.
Qed.

End FirstRound.

(** *** The properties at concrete runs *)

(** C4 on two short deltas, then on a stream whose first delta alone
    exceeds the threshold: the text comes out whole, as one trailing
    flush in the first run and as one over-threshold flush followed by
    the trailing flush in the second. *)
Lemma C4_text_only_stream_witness :
  (emitted (smart_stream_generator greeting_env (user_request "Hi")) tt
     = [FText "Hello, world."; FDone]
   ∧ ∃ flushed rest,
       emitted (smart_stream_generator greeting_env (user_request "Hi")) tt =
         map FText flushed ++ (if decide (rest = "") then [] else [FText rest]) ++ [FDone]
       ∧ Forall (λ t, 60 < String.length t) flushed
       ∧ String.length rest ≤ 60
       ∧ concat_str
           (text_frames (emitted (smart_stream_generator greeting_env (user_request "Hi")) tt))
         = "Hello, world.")
  ∧ (emitted (smart_stream_generator long_answer_env (user_request "Hi")) tt
       = [FText long_filler; FText " Done."; FDone]
     ∧ ∃ flushed rest,
         emitted (smart_stream_generator long_answer_env (user_request "Hi")) tt =
           map FText flushed ++ (if decide (rest = "") then [] else [FText rest]) ++ [FDone]
         ∧ Forall (λ t, 60 < String.length t) flushed
         ∧ String.length rest ≤ 60
         ∧ concat_str
             (text_frames
                (emitted (smart_stream_generator long_answer_env (user_request "Hi")) tt))
           = "Let me check your calendar for today, this will take a moment Done.").
Proof.
  split; (split; [vm_compute; reflexivity |]).
  - exact (C4_text_only_stream greeting_env (user_request "Hi") tt tt tt []
             [HSystem system_instruction; HRequest "user" (Some "Hi") None]
             (whole [text_chunk "Hello, "; text_chunk "world."])
             eq_refl eq_refl eq_refl eq_refl ltac:(repeat constructor)).
  - exact (C4_text_only_stream long_answer_env (user_request "Hi") tt tt tt []
             [HSystem system_instruction; HRequest "user" (Some "Hi") None]
             (whole [text_chunk long_filler; text_chunk " Done."])
             eq_refl eq_refl eq_refl eq_refl ltac:(repeat constructor)).
Defined.

Example greeting_run :
  emitted (smart_stream_generator greeting_env (user_request "Hi")) tt =
    [FText "Hello, world."; FDone].
Proof. reflexivity. Qed.

Lemma C2_buffered_filler_suppressed_witness :
  ∃ flushed dropped,
    text_frames (emitted (smart_stream_generator short_filler_env calendar_request) tt) = flushed
    ∧ Forall (λ t, FLUSH_THRESHOLD < String.length t) flushed
    ∧ String.length dropped ≤ FLUSH_THRESHOLD
    ∧ concat_str flushed +:+ dropped = concat_str (map chunk_text [text_chunk "Let me check that."])
    ∧ (String.length (concat_str (map chunk_text [text_chunk "Let me check that."]))
         ≤ FLUSH_THRESHOLD → flushed = []).
Proof.
  apply (C2_buffered_filler_suppressed short_filler_env calendar_request tt tt tt calendar_tools
           [HSystem system_instruction;
            HRequest "user" (Some "What's on my calendar today?") None]
           (whole [text_chunk "Let me check that."; calendar_call])
           eq_refl eq_refl eq_refl [text_chunk "Let me check that."] [] calendar_call);
    [reflexivity | repeat constructor | reflexivity].
Defined.

Example short_filler_run :
  emitted (smart_stream_generator short_filler_env calendar_request) tt =
    [FToolStart "read_calendar" (JStr "List calendar events."); FToolEnd "[]";
     FChunk "You have no events today."; FDone].
Proof. vm_compute. reflexivity. Qed.

Example long_filler_run :
  emitted (smart_stream_generator long_filler_env calendar_request) tt =
    [FText long_filler;
     FToolStart "read_calendar" (JStr "List calendar events."); FToolEnd "[]";
     FChunk "You have no events today."; FDone].
Proof. vm_compute. reflexivity. Qed.

(** C2 as stated fails: 61 characters of narration followed by a
    tool-call delta are flushed to the caller before the tool call is
    seen. *)
Lemma C2_long_filler_is_emitted : ¬ suppression_is_total.
Proof.
  intros Htotal.
  specialize (Htotal long_filler_env calendar_request calendar_tools
                [HSystem system_instruction;
                 HRequest "user" (Some "What's on my calendar today?") None]
                (whole [text_chunk long_filler; calendar_call])
                [text_chunk long_filler] [] calendar_call
                eq_refl eq_refl eq_refl eq_refl).
  rewrite long_filler_run in Htotal. cbn [text_frames] in Htotal.
  assert (Hpre : [text_chunk long_filler] ≠ []) by done.
  specialize (Htotal Hpre ltac:(repeat constructor) eq_refl).
  discriminate Htotal.
Qed.

(** C1 (defect of the code): when the model stream breaks, the run
    ends with the error frame and the terminator is never sent. *)
Theorem C1_error_path_omits_terminator :
  emitted (smart_stream_generator broken_stream_env calendar_request) tt
    = [FError "Connection error."]
  ∧ last (emitted (smart_stream_generator broken_stream_env calendar_request) tt)
    ≠ Some FDone
  ∧ FDone ∉ emitted (smart_stream_generator broken_stream_env calendar_request) tt.
Proof.
  assert (Hrun : emitted (smart_stream_generator broken_stream_env calendar_request) tt
                 = [FError "Connection error."]) by (vm_compute; reflexivity).
  split; [exact Hrun |]. split.
  - rewrite last_frame_of_run.
    assert (Hout : outcome (generator_body broken_stream_env calendar_request) tt
                   = Raise "Connection error.") by (vm_compute; reflexivity).
    by rewrite Hout.
  - rewrite Hrun. intros Hin. apply list_elem_of_singleton in Hin. discriminate Hin.
Qed.

Lemma same_index_fragments_reassembled_witness :
  ∃ st,
    for_each split_call step_chunk initial_state tt = ([], tt, Ok st)
    ∧ tool_calls st = replicate 1 placeholder ++ [assemble (concat (map chunk_fragments split_call))]
    ∧ tool_calls st !! 1 =
        Some {| tc_id := "call_7"; tc_type := "function";
                tc_function := {| cf_name := "search_emails"; cf_arguments := "{}" |} |}
    ∧ ∀ j, j < 1 → tool_calls st !! j = Some placeholder.
Proof.
  apply (same_index_fragments_reassembled split_call 1 tt); [done | repeat constructor].
Defined.

Example split_call_run :
  (for_each split_call step_chunk initial_state tt).2 =
    Ok {| tool_calls :=
            [placeholder;
             {| tc_id := "call_7"; tc_type := "function";
                tc_function := {| cf_name := "search_emails"; cf_arguments := "{}" |} |}];
          text_buffer := ""; is_tool_mode := true |}.
Proof. vm_compute. reflexivity. Qed.

(** C3 (defect of the code): a call whose first fragment carries the
    id alone, with no function object, and whose second fragment
    carries the name and the arguments.  The claim reconstructs the
    call with that id, that name and those arguments; the code raises
    on the first fragment, when it reads the name of the missing
    function object, so no call is reconstructed: the run is the error
    frame alone, the tool is never started and the terminator is not
    sent. *)
Theorem C3_id_only_fragment_aborts :
  assemble (concat (map chunk_fragments id_first_call)) =
    {| tc_id := "call_1"; tc_type := "function";
       tc_function := {| cf_name := "read_calendar"; cf_arguments := "{}" |} |}
  ∧ for_each id_first_call step_chunk initial_state tt =
      ([], tt, Raise "'NoneType' object has no attribute 'name'")
  ∧ emitted (smart_stream_generator id_first_env calendar_request) tt =
      [FError "'NoneType' object has no attribute 'name'"].
Proof. split; [|split]; vm_compute; reflexivity. Qed.


End ServerProps.

(** ** Properties of the agent *)

Module AgentProps.
Import Agent Samples.

Section Dispatch.
Context {W : Type} (dumps : json → string) (loads : string → result json).
Implicit Types (st : agent_state W) (data msg_id args : json).

(** A [tools/call] request gets past the liveness filter and the
    [tools/list] branch, down to the registry lookup. *)
Lemma handle_tools_call st data msg_id (name : string) args :
  is_tools_call data msg_id name args →
  handle_message dumps st data =
    match registry_find (TOOLS_REGISTRY st) name with
    | Some tool =>
        match func tool args (world st) with
        | (Ok result, w) =>
            (Ok (Reply (dumps (result_response dumps msg_id result))), with_world st w)
        | (Raise e, w) =>
            (Ok (Reply (dumps (error_response msg_id (-32000) e))), with_world st w)
        end
    | None => (Ok (Reply (dumps (error_response msg_id (-32601) "Tool not found"))), st)
    end.
Proof.
  intros (items & pitems & -> & Hmethod & Hresult & Hid & Hparams & Hname & Hargs).
  assert (Hpong : eq_str (default JNull (items_get items "result")) "pong" = false).
  { destruct (items_get items "result") as [[| | |r| |]|]; cbn; try done.
    destruct (String.eqb_spec r "pong") as [->|]; done. }
  unfold handle_message. cbv zeta. rewrite Hmethod, Hparams, Hpong, Hid.
  unfold default at 1 2 3 4. cbn [from_option id eq_str].
  change (String.eqb "tools/call" "ping") with false.
  change (String.eqb "tools/call" "tools/list") with false.
  change (String.eqb "tools/call" "tools/call") with true.
  cbn [orb]. rewrite Hname, Hargs. cbn [default from_option id registry_get].
  destruct (registry_find (TOOLS_REGISTRY st) name) as [tool|]; [|done].
  unfold result_response, error_response.
  destruct (blocking tool); by destruct (func tool args (world st)) as [[result|e] w].
Qed.

(** A message that is answered leaves the connection open: the
    response is sent and the loop goes on with the rest of the traffic. *)
Lemma message_loop_replied st st1 (m : inbound) (rest : list inbound) (how : closing)
    data (payload : string) :
  loads (message m) = Ok data →
  handle_message dumps st data = (Ok (Reply payload), st1) →
  send_ok m = true →
  message_loop dumps loads st (m :: rest) how =
    match message_loop dumps loads st1 rest how with
    | (evs, fin, st2) => (EvSend payload :: evs, fin, st2)
    end.
Proof. intros Hload Hhandle Hsend. cbn [message_loop]. by rewrite Hload, Hhandle, Hsend. Qed.

(** C5: a [tools/call] request naming a tool the registry does not hold
    is answered by exactly one response carrying the id of the request
    and the error code -32601; the state of the agent (registry and
    world) is unchanged, and the connection goes on serving the
    traffic that follows. *)
Theorem C5_unknown_tool st data msg_id (name : string) args :
  is_tools_call data msg_id name args →
  registry_find (TOOLS_REGISTRY st) name = None →
  handle_message dumps st data =
    (Ok (Reply (dumps (JObj [("jsonrpc", JStr "2.0"); ("id", msg_id);
                             ("error",
                               JObj [("code", JNum (-32601));
                                     ("message", JStr "Tool not found")])]))), st)
  ∧ ∀ m rest how,
      loads (message m) = Ok data →
      send_ok m = true →
      message_loop dumps loads st (m :: rest) how =
        match message_loop dumps loads st rest how with
        | (evs, fin, st2) =>
            (EvSend (dumps (JObj [("jsonrpc", JStr "2.0"); ("id", msg_id);
                                  ("error",
                                    JObj [("code", JNum (-32601));
                                          ("message", JStr "Tool not found")])])) :: evs,
             fin, st2)
        end.
Proof.
  intros Hcall Habsent. fold (error_response msg_id (-32601) "Tool not found").
  assert (Hhandle : handle_message dumps st data =
            (Ok (Reply (dumps (error_response msg_id (-32601) "Tool not found"))), st))
    by (by rewrite (handle_tools_call st data msg_id name args Hcall), Habsent).
  split; [exact Hhandle |].
  intros m rest how Hload Hsend. by apply message_loop_replied with (data := data).
Qed.

(** C6: for a registered tool the two failure channels differ.  A
    raised exception becomes an error response with code -32000 and the
    message of the exception; an in-band error object is returned as a
    successful result, serialized as text.  Either way the message is
    answered and the loop goes on. *)
Theorem C6_failure_channels st data msg_id (name : string) args (tool : tool_entry W) :
  is_tools_call data msg_id name args →
  registry_find (TOOLS_REGISTRY st) name = Some tool →
  (∀ e w,
      func tool args (world st) = (Raise e, w) →
      handle_message dumps st data =
        (Ok (Reply (dumps (error_response msg_id (-32000) e))),
         {| TOOLS_REGISTRY := TOOLS_REGISTRY st; world := w |})
      ∧ fields (error_response msg_id (-32000) e) = ["jsonrpc"; "id"; "error"])
  ∧ (∀ msg w,
      func tool args (world st) = (Ok (JObj [("error", JStr msg)]), w) →
      handle_message dumps st data =
        (Ok (Reply (dumps (result_response dumps msg_id (JObj [("error", JStr msg)])))),
         {| TOOLS_REGISTRY := TOOLS_REGISTRY st; world := w |})
      ∧ fields (result_response dumps msg_id (JObj [("error", JStr msg)]))
        = ["jsonrpc"; "id"; "result"])
  ∧ ∃ payload st1,
      handle_message dumps st data = (Ok (Reply payload), st1)
      ∧ ∀ m rest how,
          loads (message m) = Ok data →
          send_ok m = true →
          message_loop dumps loads st (m :: rest) how =
            match message_loop dumps loads st1 rest how with
            | (evs, fin, st2) => (EvSend payload :: evs, fin, st2)
            end.
Proof.
  intros Hcall Hfound.
  pose proof (handle_tools_call st data msg_id name args Hcall) as Hhandle.
  rewrite Hfound in Hhandle.
  split; [|split].
  - intros e w Hraise. by rewrite Hhandle, Hraise.
  - intros msg w Hret. by rewrite Hhandle, Hret.
  - destruct (func tool args (world st)) as [[result|e] w]; do 2 eexists;
      (split; [exact Hhandle |]);
      intros m rest how Hload Hsend; by apply message_loop_replied with (data := data).
Qed.

(** C9: an envelope whose method is none of [ping], [tools/list],
    [tools/call], and whose result is not [pong], is still answered,
    with a response that holds the version and the id of the request
    and nothing else: no result, no error. *)
Theorem C9_unknown_method st (items : list (string * json)) :
  let method := default JNull (items_get items "method") in
  eq_str method "ping" = false →
  eq_str method "tools/list" = false →
  eq_str method "tools/call" = false →
  eq_str (default JNull (items_get items "result")) "pong" = false →
  handle_message dumps st (JObj items) =
    (Ok (Reply (dumps (bare_response (default JNull (items_get items "id"))))), st)
  ∧ fields (bare_response (default JNull (items_get items "id"))) = ["jsonrpc"; "id"].
Proof.
  intros method Hping Hlist Hcall Hpong. subst method.
  split; [|done].
  unfold handle_message. cbv zeta. by rewrite Hping, Hpong, Hlist, Hcall.
Qed.

(** *** The connection loop *)

Lemma message_loop_sends st (traffic : list inbound) (how : closing) :
  Forall (λ ev, ∃ payload, ev = EvSend payload) (message_loop dumps loads st traffic how).1.1.
Proof.
  revert st. induction traffic as [|m rest IH]; intros st; cbn [message_loop].
  - by destruct how.
  - destruct (loads (message m)) as [data|e]; [|done].
    destruct (handle_message dumps st data) as [[[|payload]|e] st1]; [apply IH | | done].
    destruct (send_ok m); [|done].
    specialize (IH st1). destruct (message_loop dumps loads st1 rest how) as [[evs fin] st2].
    cbn in *. constructor; [by eexists | done].
Qed.

Lemma connects_app (a b : list event) : connects (a ++ b) = connects a + connects b.
Proof.
  induction a as [|ev a IH]; [done |].
  destruct ev; cbn; by rewrite ?IH.
Qed.

Lemma sends_no_connect (evs : list event) :
  Forall (λ ev, ∃ payload, ev = EvSend payload) evs → connects evs = 0.
Proof. induction 1 as [|ev evs [payload ->] _ IH]; [done | by cbn]. Qed.

Lemma sends_no_sleep (evs : list event) :
  Forall (λ ev, ∃ payload, ev = EvSend payload) evs → Forall (λ ev, is_sleep ev = false) evs.
Proof. intros Hsends. eapply Forall_impl; [exact Hsends |]. by intros ev [payload ->]. Qed.

(** Every pass of the loop makes exactly one connection attempt. *)
Lemma connection_connects st (a : attempt) :
  connects (connection dumps loads st a).1 = 1.
Proof.
  destruct a as [e|traffic how]; [done |]. cbn [connection].
  pose proof (message_loop_sends st traffic how) as Hsends.
  destruct (message_loop dumps loads st traffic how) as [[evs fin] st1]. cbn in Hsends.
  apply sends_no_connect in Hsends.
  destruct fin; cbn [fst]; rewrite !connects_app, Hsends; done.
Qed.

Lemma agent_loop_connects st (script : list attempt) :
  connects (agent_loop dumps loads st script).1 = length script.
Proof.
  revert st. induction script as [|a script IH]; intros st; [done |].
  cbn [agent_loop]. pose proof (connection_connects st a) as Hone.
  destruct (connection dumps loads st a) as [evs st1].
  specialize (IH st1). destruct (agent_loop dumps loads st1 script) as [evs2 st2].
  cbn in *. rewrite connects_app. lia.
Qed.

Lemma agent_loop_failures st (es : list string) :
  agent_loop dumps loads st (map ConnectFails es) =
    (flat_map (λ e, [EvConnect; EvConnectionError e; EvSleep BACKOFF]) es, st).
Proof.
  induction es as [|e es IH]; [done |].
  cbn [map agent_loop connection flat_map]. by rewrite IH.
Qed.

(** The backoff follows errors only.  A connection attempt that fails,
    and a session that an exception other than a closed connection
    ends, are followed by the 5-second sleep; a session ended by the
    server closing or by a closed connection is followed by no sleep.
    The loop has no exit: it makes one attempt per scripted outcome,
    however many there are, and N consecutive connection failures are
    N attempts each followed by the backoff. *)
Theorem backoff_after_errors_only st :
  (∀ e, connection dumps loads st (ConnectFails e) =
          ([EvConnect; EvConnectionError e; EvSleep BACKOFF], st))
  ∧ (∀ traffic how,
       match message_loop dumps loads st traffic how with
       | (evs, Crashed e, st1) =>
           connection dumps loads st (Connects traffic how) =
             ([EvConnect; EvHeartbeatStart] ++ evs
                ++ [EvHeartbeatCancel; EvConnectionError e; EvSleep BACKOFF], st1)
       | (evs, _, st1) =>
           Forall (λ ev, is_sleep ev = false) (connection dumps loads st (Connects traffic how)).1
       end)
  ∧ (∀ es,
       agent_loop dumps loads st (map ConnectFails es) =
         (flat_map (λ e, [EvConnect; EvConnectionError e; EvSleep BACKOFF]) es, st)
       ∧ connects (agent_loop dumps loads st (map ConnectFails es)).1 = length es)
  ∧ (∀ script, connects (agent_loop dumps loads st script).1 = length script)
  ∧ BACKOFF = 5.
Proof.
  split; [done |]. split; [|split; [|split; [apply agent_loop_connects | done]]].
  - intros traffic how. cbn [connection].
    pose proof (message_loop_sends st traffic how) as Hsends.
    destruct (message_loop dumps loads st traffic how) as [[evs fin] st1]. cbn in Hsends.
    apply sends_no_sleep in Hsends.
    destruct fin; [| |done]; cbn [fst];
      repeat (apply Forall_app; split); try done; repeat constructor.
  - intros es. split; [apply agent_loop_failures |].
    rewrite agent_loop_connects. apply length_map.
Qed.

End Dispatch.

(** *** Email search *)

Lemma search_loop_length (range : list nat) (items : list (result com_item))
    (acc results : list json) :
  search_loop range items acc = Ok results →
  length results ≤ length acc + length range.
Proof.
  revert acc. induction range as [|i range IH]; intros acc; cbn [search_loop length].
  - intros [= <-]. lia.
  - destruct (decide (length items ≤ i)); [intros [= <-]; lia |].
    destruct (items !! i) as [[msg|e]|]; [|done..].
    intros Hrun. apply IH in Hrun. rewrite length_app in Hrun. cbn in Hrun. lia.
Qed.

Lemma py_range_length (n : Z) : length (py_range n) = Z.to_nat n.
Proof. unfold py_range. apply length_seq. Qed.

(** The claim as the specification words it: whenever the search
    returns a list, it holds at most min(count, 20) summaries. *)
Definition capped_at_min_count : Prop :=
  ∀ (outlook : Outlook) (query : string) (count : Z) (results : list json),
    tool_search_emails outlook query count = Ok (JArr results) →
    (Z.of_nat (length results) ≤ Z.min count 20)%Z.

(** C10 (amended): when the search does not fail, it returns at most
    max(0, min(count, 20)) summaries: never more than 20 whatever count
    is asked for, at most min(count, 20) when count is not negative,
    and none when count is zero or negative. *)
Theorem C10_search_capped (outlook : Outlook) (query : string) (count : Z)
    (results : list json) :
  tool_search_emails outlook query count = Ok (JArr results) →
  (Z.of_nat (length results) ≤ Z.max 0 (Z.min count 20))%Z
  ∧ length results ≤ 20
  ∧ ((0 ≤ count)%Z → (Z.of_nat (length results) ≤ Z.min count 20)%Z)
  ∧ ((count ≤ 0)%Z → results = []).
Proof.
  unfold tool_search_emails, search_body, error_object.
  destruct (pythoncom outlook); [|done]. cbn [negb].
  destruct (CoInitialize outlook) as [[]|e]; [|done]. cbn [result_bind].
  destruct (CoUninitialize outlook) as [[]|e]; [|done]. cbn [result_bind].
  destruct (restrict outlook (search_filter query)) as [items|e]; [|done].
  destruct (search_loop _ items []) as [found|e] eqn:Hloop; [|done].
  intros [= <-]. apply search_loop_length in Hloop.
  rewrite py_range_length in Hloop. cbn [length] in Hloop.
  split; [lia |]. split; [lia |]. split; [lia |].
  intros Hcount. destruct found as [|x found]; [done |]. cbn [length] in Hloop. lia.
Qed.

Lemma C10_search_capped_witness :
  tool_search_emails full_inbox "invoice" 50
    = Ok (JArr (replicate 20 (parse_email_summary Unreadable)))
  ∧ (Z.of_nat (length (replicate 20 (parse_email_summary Unreadable)))
       ≤ Z.max 0 (Z.min 50 20))%Z
  ∧ length (replicate 20 (parse_email_summary Unreadable)) ≤ 20
  ∧ ((0 ≤ 50)%Z →
     (Z.of_nat (length (replicate 20 (parse_email_summary Unreadable))) ≤ Z.min 50 20)%Z)
  ∧ ((50 ≤ 0)%Z → replicate 20 (parse_email_summary Unreadable) = []).
Proof.
  split; [reflexivity |].
  apply (C10_search_capped full_inbox "invoice" 50). reflexivity.
Defined.

Example search_negative : tool_search_emails full_inbox "invoice" (-3) = Ok (JArr []).
Proof. reflexivity. Qed.

(** C10 as stated fails: asked for -3 summaries, the search succeeds
    with the empty list, whose length 0 is above min(-3, 20) = -3. *)
Lemma C10_negative_count_is_above_min : ¬ capped_at_min_count.
Proof.
  intros Hcap.
  specialize (Hcap full_inbox "invoice" (-3)%Z [] search_negative).
  cbn in Hcap. lia.
Qed.

(** *** The properties at concrete runs *)

Lemma call_request_is_tools_call (msg_id : Z) (name : string) :
  is_tools_call (call_request msg_id name) (JNum msg_id) name (JObj []).
Proof.
  exists [("jsonrpc", JStr "2.0"); ("id", JNum msg_id); ("method", JStr "tools/call");
          ("params", JObj [("name", JStr name); ("arguments", JObj [])])],
         [("name", JStr name); ("arguments", JObj [])].
  repeat split; done.
Defined.

Lemma C5_unknown_tool_witness :
  handle_message show laptop (call_request 7 "delete_all") =
    (Ok (Reply (show (JObj [("jsonrpc", JStr "2.0"); ("id", JNum 7);
                            ("error",
                              JObj [("code", JNum (-32601));
                                    ("message", JStr "Tool not found")])]))),
     {| TOOLS_REGISTRY := laptop_registry; world := 0 |})
  ∧ ∀ m rest how,
      decode (message m) = Ok (call_request 7 "delete_all") →
      send_ok m = true →
      message_loop show decode laptop (m :: rest) how =
        match message_loop show decode laptop rest how with
        | (evs, fin, st2) =>
            (EvSend (show (JObj [("jsonrpc", JStr "2.0"); ("id", JNum 7);
                                 ("error",
                                   JObj [("code", JNum (-32601));
                                         ("message", JStr "Tool not found")])])) :: evs,
             fin, st2)
        end.
Proof.
  exact (C5_unknown_tool show decode laptop (call_request 7 "delete_all") (JNum 7)
           "delete_all" (JObj []) (call_request_is_tools_call 7 "delete_all") eq_refl).
Defined.

Example unknown_tool_payload :
  show (error_response (JNum 7) (-32601) "Tool not found") =
    "{" +:+ dquote +:+ "jsonrpc" +:+ dquote +:+ ": " +:+ dquote +:+ "2.0" +:+ dquote +:+ ", "
        +:+ dquote +:+ "id" +:+ dquote +:+ ": 7, "
        +:+ dquote +:+ "error" +:+ dquote +:+ ": {"
        +:+ dquote +:+ "code" +:+ dquote +:+ ": -32601, "
        +:+ dquote +:+ "message" +:+ dquote +:+ ": " +:+ dquote +:+ "Tool not found" +:+ dquote
        +:+ "}}".
Proof. vm_compute. reflexivity. Qed.

(** C6 on the sample registry: [send_email] raises, [read_emails]
    returns an in-band error object; both handlers ran once. *)
Lemma C6_failure_channels_witness :
  handle_message show laptop (call_request 9 "send_email") =
    (Ok (Reply (show (JObj [("jsonrpc", JStr "2.0"); ("id", JNum 9);
                            ("error",
                              JObj [("code", JNum (-32000));
                                    ("message",
                                      JStr "tool_send_email() missing 1 required positional argument: 'to'")])]))),
     {| TOOLS_REGISTRY := laptop_registry; world := 1 |})
  ∧ handle_message show laptop (call_request 8 "read_emails") =
      (Ok (Reply (show (JObj [("jsonrpc", JStr "2.0"); ("id", JNum 8);
                              ("result",
                                JObj [("content",
                                        JArr [JObj [("type", JStr "text");
                                                    ("text",
                                                      JStr (show (JObj [("error",
                                                                         JStr "Windows/Outlook required")])))]])])]))),
       {| TOOLS_REGISTRY := laptop_registry; world := 1 |}).
Proof.
  split.
  - exact (proj1 (proj1 (C6_failure_channels show decode laptop (call_request 9 "send_email")
                           (JNum 9) "send_email" (JObj []) _
                           (call_request_is_tools_call 9 "send_email") eq_refl)
                    _ _ eq_refl)).
  - exact (proj1 (proj1 (proj2 (C6_failure_channels show decode laptop
                                  (call_request 8 "read_emails")
                                  (JNum 8) "read_emails" (JObj []) _
                                  (call_request_is_tools_call 8 "read_emails") eq_refl))
                    _ _ eq_refl)).
Defined.

Lemma C9_unknown_method_witness :
  handle_message show laptop (JObj (method_request 10 "resources/list")) =
    (Ok (Reply (show (bare_response (JNum 10)))), laptop)
  ∧ fields (bare_response (JNum 10)) = ["jsonrpc"; "id"].
Proof.
  apply (C9_unknown_method show laptop (method_request 10 "resources/list")); reflexivity.
Defined.

Example closed_twice :
  (agent_loop show decode laptop [Connects [] ServerClose; Connects [] ConnectionClosed]).1 =
    [EvConnect; EvHeartbeatStart; EvHeartbeatCancel;
     EvConnect; EvHeartbeatStart; EvConnectionLost; EvHeartbeatCancel].
Proof. reflexivity. Qed.

(** C8 (defect of the code): the server closes the first connection,
    the second one is lost, the third attempt is refused.  The refused
    attempt is followed by the 5-second backoff, as the claim says of
    every way a connection ends; the two ended sessions are not: the
    agent connects again at once, with no sleep in between. *)
Theorem C8_reconnects_at_once_after_close :
  (agent_loop show decode laptop
     [Connects [] ServerClose; Connects [] ConnectionClosed; ConnectFails "refused";
      Connects [] ServerClose]).1 =
    [EvConnect; EvHeartbeatStart; EvHeartbeatCancel;
     EvConnect; EvHeartbeatStart; EvConnectionLost; EvHeartbeatCancel;
     EvConnect; EvConnectionError "refused"; EvSleep 5;
     EvConnect; EvHeartbeatStart; EvHeartbeatCancel]
  ∧ ¬ always_backs_off.
Proof.
  split; [reflexivity |].
  intros Hback.
  specialize (Hback show decode laptop
                [Connects [] ServerClose; Connects [] ConnectionClosed]
                [EvConnect; EvHeartbeatStart; EvHeartbeatCancel]
                [EvHeartbeatStart; EvConnectionLost; EvHeartbeatCancel]).
  rewrite closed_twice in Hback.
  specialize (Hback eq_refl ltac:(done)).
  discriminate Hback.
Qed.

Example three_failures :
  (agent_loop show decode laptop
     [ConnectFails "refused"; ConnectFails "refused"; ConnectFails "timed out"]).1 =
    [EvConnect; EvConnectionError "refused"; EvSleep 5;
     EvConnect; EvConnectionError "refused"; EvSleep 5;
     EvConnect; EvConnectionError "timed out"; EvSleep 5].
Proof. reflexivity. Qed.

(** A session in which a message does not decode ends with the backoff. *)
Example garbled_message :
  (agent_loop show decode laptop
     [Connects [{| message := "call delete_all"; send_ok := true |};
                {| message := "not json"; send_ok := true |}] ServerClose]).1 =
    [EvConnect; EvHeartbeatStart;
     EvSend (show (error_response (JNum 7) (-32601) "Tool not found"));
     EvHeartbeatCancel;
     EvConnectionError "Expecting value: line 1 column 1 (char 0)"; EvSleep 5].
Proof. vm_compute. reflexivity. Qed.

End AgentProps.

(** ** Further properties of the orchestrator *)

Module ServerMore.
Import Server Samples ServerProps.

(** *** Vocabulary *)

(** The frames of the tool round: start, result and error frames. *)
Definition tool_frame (f : frame) : Prop :=
  match f with
  | FToolStart _ _ | FToolEnd _ | FError _ => True
  | _ => False
  end.

(** What the loop over the first stream keeps true of its state: the
    buffer never stays above the threshold, it is empty in tool mode,
    and tool calls are only ever accumulated in tool mode. *)
Definition round_inv (st : stream_state) : Prop :=
  String.length (text_buffer st) ≤ FLUSH_THRESHOLD
  ∧ (is_tool_mode st = true → text_buffer st = "")
  ∧ (tool_calls st ≠ [] → is_tool_mode st = true).

(** What the last tool definition that carries [name] describes the
    tool with: the value under its ["description"] key, whatever it is
    (a null stays a null), and the empty string when it has no such
    key. *)
Definition last_description (tools : list tool_def) (name : string) : option json :=
  last (omap (λ t,
                match tool_fn t with
                | Some {| fn_name := n; fn_description := d |} =>
                    if String.eqb n name
                    then Some (match d with
                               | Some v => v
                               | None => JStr ""
                               end)
                    else None
                | None => None
                end) tools).



(** *** The tool-description map *)

Lemma build_descriptions_lookup (tools : list tool_def) (m : gmap string json) (name : string) :
  build_descriptions tools m !! name =
    match last_description tools name with
    | Some d => Some d
    | None => m !! name
    end.
Proof.
  unfold last_description. revert m. induction tools as [|t tools IH]; intros m; [done |].
  cbn [build_descriptions omap list_omap]. fold (@omap list _).
  destruct (tool_fn t) as [[n d]|]; [|apply IH].
  rewrite IH. cbn [fn_name fn_description]. destruct (String.eqb_spec n name) as [->|Hne].
  - rewrite last_cons. rewrite lookup_insert_eq.
    destruct (last _); [done |]. by destruct d.
  - by rewrite lookup_insert_ne.
Qed.

(** The start frame of a call carries the name of the call and the
    description of the last definition with that name, as that
    definition stores it: a string, a null when the definition holds
    [None], the empty string when it has no description key.  A name no
    definition carries gets the default text. *)
Theorem description_of_last_definition {W} (env : Env W) (tools : list tool_def)
    (tc : tool_call) (msgs : list history_entry) (w : W) :
  ∃ verdict,
    emitted (process_tool_call env (build_descriptions tools ∅) tc msgs) w =
      [FToolStart (cf_name (tc_function tc))
         (match last_description tools (cf_name (tc_function tc)) with
          | Some description => description
          | None => JStr "Executing enterprise utility function..."
          end);
       verdict].
Proof.
  unfold emitted. rewrite process_tool_call_eq. cbn zeta.
  rewrite build_descriptions_lookup, lookup_empty.
  destruct (call_result env tc w) as [[r|e] w1]; cbn [fst]; eexists;
    by destruct (last_description tools _).
Qed.

(** A definition whose description is [None] is announced with a null,
    and one without a description key with the empty string. *)
Example null_description :
  emitted (process_tool_call broken_stream_env
             (build_descriptions
                [{| tool_fn := Some {| fn_name := "read_calendar";
                                       fn_description := Some JNull |} |};
                 {| tool_fn := Some {| fn_name := "read_emails";
                                       fn_description := None |} |}] ∅)
             calendar_tool_call []) tt
    = [FToolStart "read_calendar" JNull; FToolEnd "[]"]
  ∧ emitted (process_tool_call broken_stream_env
               (build_descriptions
                  [{| tool_fn := Some {| fn_name := "read_calendar";
                                         fn_description := Some JNull |} |};
                   {| tool_fn := Some {| fn_name := "read_emails";
                                         fn_description := None |} |}] ∅)
               {| tc_id := "call_2"; tc_type := "function";
                  tc_function := {| cf_name := "read_emails"; cf_arguments := "{}" |} |} []) tt
    = [FToolStart "read_emails" (JStr ""); FError "Tool 'read_emails' not found"].
Proof. split; vm_compute; reflexivity. Qed.

(** *** The message list *)


(** *** The state of the first round *)

Lemma step_chunk_shape {W} (c : chunk) (st : stream_state) (w : W) :
  ∃ fs r,
    step_chunk c st w = (fs, w, r)
    ∧ (fs = [] ∨ ∃ t, fs = [FText t] ∧ FLUSH_THRESHOLD < String.length t)
    ∧ (round_inv st → ∀ st1, r = Ok st1 → round_inv st1).
Proof.
  unfold step_chunk. destruct (choices c) as [|d ds].
  { exists [], (Raise IndexError). split; [reflexivity |]. split; [by left | done]. }
  destruct st as [tcs buf md]. unfold round_inv. cbn [text_buffer is_tool_mode tool_calls].
  unfold mbind, gen_bind, mret, gen_ret, lift, yield.
  destruct (has_tool_calls d).
  - destruct md; cbn -[merge_fragments String.append String.length FLUSH_THRESHOLD];
      (destruct (merge_fragments _ tcs) as [tcs1|e];
       [|exists [], (Raise e); split; [reflexivity |]; split; [by left | done]]);
      cbn -[String.append String.length FLUSH_THRESHOLD];
      destruct (truthy (d_content d));
      cbn -[String.append String.length FLUSH_THRESHOLD];
      eexists [], _; (split; [reflexivity |]); (split; [by left |]);
      intros (Hlen & Hmode & Hcalls) st1 [= <-]; cbn; repeat split; auto;
      unfold FLUSH_THRESHOLD; cbn; lia.
  - cbn -[String.append String.length FLUSH_THRESHOLD].
    destruct (truthy (d_content d)); cbn -[String.append String.length FLUSH_THRESHOLD].
    + destruct md; cbn -[String.append String.length FLUSH_THRESHOLD].
      * eexists [], _. split; [reflexivity |]. split; [by left |]. by intros Hinv st1 [= <-].
      * destruct (decide _) as [Hlong|Hshort];
          cbn -[String.append String.length FLUSH_THRESHOLD].
        -- eexists [_], _. split; [reflexivity |]. split; [right; by eexists |].
           intros (Hlen & Hmode & Hcalls) st1 [= <-]. cbn. repeat split; auto.
           unfold FLUSH_THRESHOLD. lia.
        -- eexists [], _. split; [reflexivity |]. split; [by left |].
           intros (Hlen & Hmode & Hcalls) st1 [= <-].
           cbn -[String.append String.length FLUSH_THRESHOLD]. repeat split; auto; [lia | done].
    + eexists [], _. split; [reflexivity |]. split; [by left |]. by intros Hinv st1 [= <-].
Qed.

Lemma round_shape {W} (cs : list chunk) (st : stream_state) (w : W) :
  ∃ ts r,
    for_each cs step_chunk st w = (map FText ts, w, r)
    ∧ Forall (λ t, FLUSH_THRESHOLD < String.length t) ts
    ∧ (round_inv st → ∀ st1, r = Ok st1 → round_inv st1).
Proof.
  revert st. induction cs as [|c cs IH]; intros st.
  - exists [], (Ok st). split; [done |]. split; [done |]. by intros Hinv st1 [= <-].
  - rewrite for_each_cons.
    destruct (step_chunk_shape c st w) as (fs & r & -> & Hfs & Hinv).
    destruct r as [st1|e].
    + destruct (IH st1) as (ts & r2 & -> & Hts & Hinv2).
      destruct Hfs as [->|(t & -> & Ht)].
      * exists ts, r2. split; [done |]. split; [done |].
        intros H0 st2 Hr. eapply Hinv2; eauto.
      * exists (t :: ts), r2. split; [done |]. split; [by constructor |].
        intros H0 st2 Hr. eapply Hinv2; eauto.
    + destruct Hfs as [->|(t & -> & Ht)].
      * exists [], (Raise e). by split.
      * exists [t], (Raise e). split; [done |]. split; [by repeat constructor | done].
Qed.

(** Whatever the first stream carries, the loop over it yields text
    frames only, each longer than 60 characters, leaves the world as it
    is, and ends in a state whose buffer holds at most 60 characters,
    is empty in tool mode, and has tool calls only in tool mode. *)
Theorem first_round_invariant {W} (cs : list chunk) (w : W) :
  ∃ ts r,
    for_each cs step_chunk initial_state w = (map FText ts, w, r)
    ∧ Forall (λ t, FLUSH_THRESHOLD < String.length t) ts
    ∧ ∀ st, r = Ok st → round_inv st.
Proof.
  destruct (round_shape cs initial_state w) as (ts & r & Hrun & Hts & Hinv).
  exists ts, r. split; [done |]. split; [done |].
  apply Hinv. unfold round_inv, FLUSH_THRESHOLD. cbn. split; [lia | by split].
Qed.

(** *** The tool round *)

Lemma relay_frames {W} (cs : list string) (w : W) :
  for_each cs (λ c _, yield (FChunk c)) tt w = (map FChunk cs, w, Ok tt).
Proof.
  induction cs as [|c cs IH]; [done |].
  rewrite for_each_cons. cbn. by rewrite IH.
Qed.

Lemma tool_round_run {W} (env : Env W) (dm : gmap string json) (model : string)
    (msgs : list history_entry) (tcs : list tool_call) (w : W) :
  tcs ≠ [] →
  tool_round env dm model msgs tcs w =
    match account env dm tcs w with
    | (fs, hs, w1) =>
        match create_stream2 env model (msgs ++ [HAssistant tcs] ++ hs) w1 with
        | (s2, w2) =>
            (fs ++ map FChunk (chunks s2), w2,
             match broken s2 with
             | Some e => Raise e
             | None => Ok tt
             end)
        end
    end.
Proof.
  intros Hne. unfold tool_round. destruct tcs as [|tc tcs]; [done |].
  set (l := tc :: tcs). cbn zeta.
  unfold mbind at 1, gen_bind at 1. rewrite tool_loop_account.
  destruct (account env dm l w) as [[fs hs] w1].
  rewrite <- app_assoc. cbn [List.app].
  unfold mbind at 1, gen_bind at 1, open_stream.
  destruct (create_stream2 env model (msgs ++ HAssistant l :: hs) w1) as [s2 w2].
  unfold iterate, mbind, gen_bind. rewrite relay_frames.
  destruct (broken s2); cbn; by rewrite ?app_nil_r.
Qed.

(** When tool calls were accumulated: the tool frames come first, in
    call order; the second request carries the history, then one
    assistant entry with the whole call array, then one tool message
    per call; its chunks are relayed as they are, in order, and a break
    of the second stream is raised after the chunks relayed so far. *)
Theorem second_round {W} (env : Env W) (dm : gmap string json) (model : string)
    (msgs : list history_entry) (tcs : list tool_call) (w : W) :
  tcs ≠ [] →
  tool_round env dm model msgs tcs w =
    match account env dm tcs w with
    | (fs, hs, w1) =>
        match create_stream2 env model (msgs ++ [HAssistant tcs] ++ hs) w1 with
        | (s2, w2) =>
            (fs ++ map FChunk (chunks s2), w2,
             match broken s2 with
             | Some e => Raise e
             | None => Ok tt
             end)
        end
    end.
Proof. apply tool_round_run. Qed.

Lemma account_tool_frames {W} (env : Env W) (dm : gmap string json)
    (tcs : list tool_call) (w : W) :
  Forall tool_frame (account env dm tcs w).1.1.
Proof.
  revert w. induction tcs as [|tc tcs IH]; intros w; [by constructor |].
  cbn [account]. destruct (call_result env tc w) as [r w1].
  specialize (IH w1). destruct (account env dm tcs w1) as [[fs hs] w2].
  cbn in *. repeat constructor; [by destruct r | done].
Qed.

(** What follows the loop over the first stream: at most one text
    frame, then tool frames, then relayed chunks, then the terminator
    if nothing was raised. *)
Lemma tail_shape {W} (env : Env W) (dm : gmap string json) (model : string)
    (msgs : list history_entry) (st : stream_state) (w : W) :
  ∃ ts tfs cs r,
    (flush_residual st;; tool_round env dm model msgs (tool_calls st);; yield FDone) w
      = (map FText ts ++ tfs ++ map FChunk cs
           ++ match r with Ok _ => [FDone] | Raise _ => [] end,
         world_after (flush_residual st;;
                      tool_round env dm model msgs (tool_calls st);; yield FDone) w, r)
    ∧ Forall tool_frame tfs.
Proof.
  destruct (tool_calls st) as [|tc tcs] eqn:Hcalls.
  - unfold flush_residual, tool_round, world_after. rewrite Hcalls.
    destruct (nonempty (text_buffer st)); cbn.
    + by exists [text_buffer st], [], [], (Ok tt).
    + by exists [], [], [], (Ok tt).
  - assert (Hflush : flush_residual st = (mret tt : gen W unit)).
    { unfold flush_residual. rewrite Hcalls.
      by rewrite andb_false_r. }
    rewrite Hflush. unfold world_after, mbind at 1 3, gen_bind at 1 3, mret, gen_ret.
    unfold mbind, gen_bind.
    rewrite (tool_round_run env dm model msgs (tc :: tcs) w ltac:(done)).
    pose proof (account_tool_frames env dm (tc :: tcs) w) as Htool.
    destruct (account env dm (tc :: tcs) w) as [[fs hs] w1]. cbn [fst] in Htool.
    destruct (create_stream2 env model _ w1) as [s2 w2].
    destruct (broken s2) as [e|]; cbn.
    + exists [], fs, (chunks s2), (Raise e). by rewrite !app_nil_r.
    + exists [], fs, (chunks s2), (Ok tt).
      split; [|done]. cbn [map List.app]. by rewrite <- app_assoc.
Qed.

(** *** The order of the frames *)

Lemma bind_run {W A B} (m : gen W A) (k : A → gen W B) (w w1 : W)
    (fs : list frame) (r : result A) :
  m w = (fs, w1, r) →
  (m ≫= k) w =
    match r with
    | Ok a => match k a w1 with (fs2, w2, r2) => (fs ++ fs2, w2, r2) end
    | Raise e => (fs, w1, Raise e)
    end.
Proof. unfold mbind, gen_bind. intros ->. by destruct r. Qed.

Lemma iterate_run {W C S} (s : llm_stream C) (body : C → S → gen W S) (st : S) (w w1 : W)
    (fs : list frame) (r : result S) :
  for_each (chunks s) body st w = (fs, w1, r) →
  iterate s body st w =
    (fs, w1,
     match r with
     | Ok st1 => match broken s with Some e => Raise e | None => Ok st1 end
     | Raise e => Raise e
     end).
Proof.
  intros Hrun. unfold iterate. rewrite (bind_run _ _ _ _ _ _ Hrun).
  destruct r as [st1|e]; [|done]. destruct (broken s); cbn; by rewrite app_nil_r.
Qed.

Lemma after_open_shape {W} (env : Env W) (req : ChatCompletionRequest)
    (tools : list tool_def) (msgs : list history_entry) (s : llm_stream chunk) (w : W) :
  ∃ ts tfs cs w1 r,
    after_open env req tools msgs s w =
      (map FText ts ++ tfs ++ map FChunk cs
         ++ match r with Ok _ => [FDone] | Raise _ => [] end, w1, r)
    ∧ Forall tool_frame tfs.
Proof.
  destruct (round_shape (chunks s) initial_state w) as (ts0 & r0 & Hrun & _ & _).
  unfold after_open. rewrite (bind_run _ _ _ _ _ _ (iterate_run _ _ _ _ _ _ _ Hrun)).
  destruct r0 as [st|e]; [destruct (broken s) as [e|] |].
  - exists ts0, [], [], w, (Raise e). by rewrite !app_nil_r.
  - destruct (tail_shape env (build_descriptions tools ∅) (model req) msgs st w)
      as (ts & tfs & cs & r & -> & Htfs).
    eexists (ts0 ++ ts), tfs, cs, _, r. split; [|done].
    by rewrite map_app, <- !app_assoc.
  - exists ts0, [], [], w, (Raise e). by rewrite !app_nil_r.
Qed.

(** Every run, whatever the collaborators do: the generator itself
    never raises, and its frames come in this order: text frames, then
    tool frames (start, result, error), then relayed chunks of the
    second round, then exactly one final frame, which is the terminator
    when the body completed and the error frame of the exception that
    escaped it otherwise.  In particular the terminator is never
    followed by another frame and never sent twice. *)
Theorem frame_order {W} (env : Env W) (req : ChatCompletionRequest) (w : W) :
  outcome (smart_stream_generator env req) w = Ok tt
  ∧ ∃ ts tfs cs final,
      emitted (smart_stream_generator env req) w =
        map FText ts ++ tfs ++ map FChunk cs ++ [final]
      ∧ Forall tool_frame tfs
      ∧ final = match outcome (generator_body env req) w with
                | Ok _ => FDone
                | Raise e => FError e
                end.
Proof.
  assert (Hshape : ∃ ts tfs cs w1 r,
            generator_body env req w =
              (map FText ts ++ tfs ++ map FChunk cs
                 ++ match r with Ok _ => [FDone] | Raise _ => [] end, w1, r)
            ∧ Forall tool_frame tfs).
  { destruct (get_all_tools_definitions env w) as [[tools|e] w1] eqn:Htools.
    - destruct (prepare_messages (messages req)) as [msgs|e] eqn:Hprep.
      + destruct (create_stream env (model req) msgs (tools_or_none tools) w1)
          as [s w2] eqn:Hstream.
        rewrite (generator_body_from_stream env req w w1 w2 tools msgs s Htools Hprep Hstream).
        apply after_open_shape.
      + exists [], [], [], w1, (Raise e). split; [|done].
        unfold generator_body. unfold mbind at 1, gen_bind at 1, call. rewrite Htools.
        unfold mbind at 1, gen_bind at 1, lift. by rewrite Hprep.
    - exists [], [], [], w1, (Raise e). split; [|done].
      unfold generator_body. unfold mbind at 1, gen_bind at 1, call. by rewrite Htools. }
  destruct Hshape as (ts & tfs & cs & w1 & r & Hbody & Htfs).
  unfold smart_stream_generator, outcome, emitted, try_except. rewrite Hbody.
  destruct r as [[]|e]; cbn [fst snd yield].
  - split; [done |]. by exists ts, tfs, cs, FDone.
  - split; [done |]. exists ts, tfs, cs, (FError e). split; [|done].
    by rewrite !app_nil_r, <- !app_assoc.
Qed.

(** *** Runs without a tool call *)

(** When no delta of the first stream carries tool-call data, the run
    ends in the world the opening of that stream left: no tool is
    executed and no second request is made, whether the stream ends
    normally or breaks. *)
Theorem text_only_run_makes_no_call {W} (env : Env W) (req : ChatCompletionRequest)
    (w w1 w2 : W) (tools : list tool_def) (msgs : list history_entry) (s : llm_stream chunk) :
  get_all_tools_definitions env w = (Ok tools, w1) →
  prepare_messages (messages req) = Ok msgs →
  create_stream env (model req) msgs (tools_or_none tools) w1 = (s, w2) →
  Forall (λ c, plain_text c = true) (chunks s) →
  world_after (smart_stream_generator env req) w = w2.
Proof.
  intros Htools Hprep Hstream Hplain.
  destruct (text_round (chunks s) initial_state w2 Hplain eq_refl)
    as (fl & buf & Hrun & _); [cbn; unfold FLUSH_THRESHOLD; lia |].
  unfold smart_stream_generator, world_after, try_except.
  rewrite (generator_body_from_stream env req w w1 w2 tools msgs s Htools Hprep Hstream).
  unfold after_open. rewrite (bind_run _ _ _ _ _ _ (iterate_run _ _ _ _ _ _ _ Hrun)).
  destruct (broken s) as [e|]; [done |].
  unfold flush_residual, tool_round. cbn [tool_calls text_buffer initial_state].
  by destruct (nonempty buf).
Qed.

Lemma text_only_run_makes_no_call_witness :
  world_after (smart_stream_generator greeting_env (user_request "Hi")) tt = tt.
Proof.
  apply (text_only_run_makes_no_call greeting_env (user_request "Hi") tt tt tt []
           [HSystem system_instruction; HRequest "user" (Some "Hi") None]
           (whole [text_chunk "Hello, "; text_chunk "world."]));
    [reflexivity | reflexivity | reflexivity | repeat constructor].
Defined.

(** *** Interleaved tool calls *)

(** Two calls, at indices 0 and 1, whose fragments arrive interleaved
    across three deltas. *)
Definition interleaved_calls : list chunk :=
  [call_chunk [{| fr_index := Some 0%Z; fr_id := Some "call_a";
                  fr_function := Some {| ff_name := Some "read_calendar"; ff_arguments := Some "{" |} |};
               {| fr_index := Some 1%Z; fr_id := Some "call_b";
                  fr_function := Some {| ff_name := Some "read_emails"; ff_arguments := None |} |}];
   call_chunk [{| fr_index := Some 1%Z; fr_id := None;
                  fr_function := Some {| ff_name := None; ff_arguments := Some "{}" |} |}];
   call_chunk [{| fr_index := Some 0%Z; fr_id := None;
                  fr_function := Some {| ff_name := None; ff_arguments := Some "}" |} |}]].

(** Tool-call deltas for several indices, interleaved in any way,
    whose indexed fragments all carry a function object: the array
    grows to the largest index reported plus one, and every slot holds
    the fragments of its own index put together in arrival order (a
    slot no fragment addressed is the placeholder). *)
Theorem interleaved_calls_reassembled {W} (cs : list chunk) (w : W) :
  cs ≠ [] →
  Forall (λ c, tool_delta c = true) cs →
  Forall natural_index (concat (map chunk_fragments cs)) →
  Forall function_present (concat (map chunk_fragments cs)) →
  ∃ st,
    for_each cs step_chunk initial_state w = ([], w, Ok st)
    ∧ length (tool_calls st) = reach (concat (map chunk_fragments cs))
    ∧ ∀ n, n < length (tool_calls st) →
        tool_calls st !! n = Some (assemble (for_index n (concat (map chunk_fragments cs)))).
Proof.
  intros Hne Hdelta Hnat Hfns.
  destruct (merge_interleaved _ [] Hnat Hfns) as (tcs1 & Hmerge & Hlen & Hslots).
  destruct (tool_deltas_round cs initial_state w tcs1 Hne Hdelta Hmerge) as [buf Hrun].
  eexists. split; [exact Hrun |]. cbn [tool_calls]. split; [by rewrite Hlen |].
  intros n Hn. rewrite (Hslots n Hn). cbn [default]. by rewrite absorb_placeholder.
Qed.

Lemma interleaved_calls_reassembled_witness :
  ∃ st,
    for_each interleaved_calls step_chunk initial_state tt = ([], tt, Ok st)
    ∧ length (tool_calls st) = reach (concat (map chunk_fragments interleaved_calls))
    ∧ ∀ n, n < length (tool_calls st) →
        tool_calls st !! n
          = Some (assemble (for_index n (concat (map chunk_fragments interleaved_calls)))).
Proof.
  apply (interleaved_calls_reassembled interleaved_calls tt);
    [done | repeat constructor | repeat constructor; cbn; lia | repeat constructor].
Defined.

Example interleaved_run :
  (for_each interleaved_calls step_chunk initial_state tt).2 =
    Ok {| tool_calls :=
            [{| tc_id := "call_a"; tc_type := "function";
                tc_function := {| cf_name := "read_calendar"; cf_arguments := "{}" |} |};
             {| tc_id := "call_b"; tc_type := "function";
                tc_function := {| cf_name := "read_emails"; cf_arguments := "{}" |} |}];
          text_buffer := ""; is_tool_mode := true |}.
Proof. vm_compute. reflexivity. Qed.

(** *** A fragment without a function object *)

Lemma step_tool_delta_raise {W} (c : chunk) (st : stream_state) (w : W) (e : string) :
  tool_delta c = true →
  merge_fragments (chunk_fragments c) (tool_calls st) = Raise e →
  step_chunk c st w = ([], w, Raise e).
Proof.
  rewrite tool_delta_eq. unfold chunk_fragments, step_chunk.
  destruct (choices c) as [|d ds]; [done |]. intros -> Hmerge.
  destruct st as [tcs0 buf md]; cbn [text_buffer is_tool_mode tool_calls] in *.
  unfold mbind, gen_bind, mret, gen_ret, lift.
  destruct md; cbn -[merge_fragments]; by rewrite Hmerge.
Qed.

Lemma merge_stops_at_functionless (before after : list fragment) (f : fragment)
    (tcs : list tool_call) (i : Z) :
  Forall natural_index before →
  Forall function_present before →
  fr_index f = Some i →
  (0 ≤ i)%Z →
  fr_function f = None →
  merge_fragments (before ++ f :: after) tcs = Raise NoneType_name.
Proof.
  intros Hnat Hfns Hidx Hi Hnone. rewrite merge_fragments_app.
  destruct (merge_interleaved before tcs Hnat Hfns) as (tcs1 & -> & _).
  cbn [result_bind merge_fragments].
  rewrite (merge_fragment_no_function f tcs1 (Z.to_nat i)); [done | | done].
  by rewrite Z2Nat.id.
Qed.

(** A fragment that has an index and no function object ends the run:
    when the deltas before it are tool-call deltas with well-formed
    fragments, the loop raises at that fragment without a frame, and
    the whole output of the generator is the error frame of the
    attribute error; no tool is started, whatever follows in the
    stream. *)
Theorem functionless_fragment_aborts {W} (env : Env W) (req : ChatCompletionRequest)
    (w w1 w2 : W) (tools : list tool_def) (msgs : list history_entry) (s : llm_stream chunk)
    (pre post : list chunk) (c : chunk) (before after : list fragment)
    (f : fragment) (i : Z) :
  get_all_tools_definitions env w = (Ok tools, w1) →
  prepare_messages (messages req) = Ok msgs →
  create_stream env (model req) msgs (tools_or_none tools) w1 = (s, w2) →
  chunks s = pre ++ c :: post →
  Forall (λ c, tool_delta c = true) pre →
  Forall natural_index (concat (map chunk_fragments pre) ++ before) →
  Forall function_present (concat (map chunk_fragments pre) ++ before) →
  tool_delta c = true →
  chunk_fragments c = before ++ f :: after →
  fr_index f = Some i →
  (0 ≤ i)%Z →
  fr_function f = None →
  for_each (chunks s) step_chunk initial_state w2 =
    ([], w2, Raise "'NoneType' object has no attribute 'name'")
  ∧ emitted (smart_stream_generator env req) w =
      [FError "'NoneType' object has no attribute 'name'"]
  ∧ world_after (smart_stream_generator env req) w = w2.
Proof.
  intros Htools Hprep Hstream Hs Hpre Hnat Hfns Hc Hfrags Hidx Hi Hnone.
  apply Forall_app in Hnat as [Hnat1 Hnat2]. apply Forall_app in Hfns as [Hfns1 Hfns2].
  assert (Hrun : for_each (chunks s) step_chunk initial_state w2 =
            ([], w2, Raise NoneType_name)).
  { rewrite Hs, for_each_app.
    destruct (merge_interleaved _ [] Hnat1 Hfns1) as (tcs1 & Hmerge & _).
    assert (Hfirst : ∃ st1, for_each pre step_chunk initial_state w2 = ([], w2, Ok st1)).
    { destruct pre as [|c0 pre]; [by eexists |].
      destruct (tool_deltas_round (c0 :: pre) initial_state w2 tcs1 ltac:(done) Hpre Hmerge)
        as [buf Hround].
      by eexists. }
    destruct Hfirst as [st1 ->]. rewrite for_each_cons.
    rewrite (step_tool_delta_raise c st1 w2 NoneType_name Hc); [done |].
    rewrite Hfrags. by apply merge_stops_at_functionless with (i := i). }
  split; [exact Hrun |].
  unfold smart_stream_generator, emitted, world_after, try_except.
  rewrite (generator_body_from_stream env req w w1 w2 tools msgs s Htools Hprep Hstream).
  unfold after_open. by rewrite (bind_run _ _ _ _ _ _ (iterate_run _ _ _ _ _ _ _ Hrun)).
Qed.

Lemma functionless_fragment_aborts_witness :
  for_each id_first_call step_chunk initial_state tt =
    ([], tt, Raise "'NoneType' object has no attribute 'name'")
  ∧ emitted (smart_stream_generator id_first_env calendar_request) tt =
      [FError "'NoneType' object has no attribute 'name'"]
  ∧ world_after (smart_stream_generator id_first_env calendar_request) tt = tt.
Proof.
  apply (functionless_fragment_aborts id_first_env calendar_request tt tt tt calendar_tools
           [HSystem system_instruction;
            HRequest "user" (Some "What's on my calendar today?") None]
           (whole id_first_call) [] (tl id_first_call)
           (call_chunk [{| fr_index := Some 0%Z; fr_id := Some "call_1";
                           fr_function := None |}])
           [] []
           {| fr_index := Some 0%Z; fr_id := Some "call_1"; fr_function := None |} 0%Z);
    [reflexivity | reflexivity | reflexivity | reflexivity | constructor | constructor
    | constructor | reflexivity | reflexivity | reflexivity | lia | reflexivity].
Defined.

Lemma second_round_witness :
  tool_round short_filler_env ∅ "gpt-4o" [] [garbled_call] tt =
    match account short_filler_env ∅ [garbled_call] tt with
    | (fs, hs, w1) =>
        match create_stream2 short_filler_env "gpt-4o"
                ([] ++ [HAssistant [garbled_call]] ++ hs) w1 with
        | (s2, w2) =>
            (fs ++ map FChunk (chunks s2), w2,
             match broken s2 with
             | Some e => Raise e
             | None => Ok tt
             end)
        end
    end.
Proof.
  apply (second_round short_filler_env ∅ "gpt-4o" [] [garbled_call] tt). done.
Defined.

(** *** A first stream that breaks *)

(** When a stream of plain-text deltas breaks, the frames are the
    over-threshold flushes made so far and then the error frame: the
    text still in the buffer (at most 60 characters) is not flushed,
    and no terminator is sent. *)
Theorem broken_stream_loses_the_remainder {W} (env : Env W) (req : ChatCompletionRequest)
    (w w1 w2 : W) (tools : list tool_def) (msgs : list history_entry) (s : llm_stream chunk)
    (e : string) :
  get_all_tools_definitions env w = (Ok tools, w1) →
  prepare_messages (messages req) = Ok msgs →
  create_stream env (model req) msgs (tools_or_none tools) w1 = (s, w2) →
  broken s = Some e →
  Forall (λ c, plain_text c = true) (chunks s) →
  ∃ flushed lost,
    emitted (smart_stream_generator env req) w = map FText flushed ++ [FError e]
    ∧ concat_str flushed +:+ lost = concat_str (map chunk_text (chunks s))
    ∧ String.length lost ≤ FLUSH_THRESHOLD
    ∧ Forall (λ t, FLUSH_THRESHOLD < String.length t) flushed.
Proof.
  intros Htools Hprep Hstream Hbroken Hplain.
  destruct (text_round (chunks s) initial_state w2 Hplain eq_refl)
    as (fl & buf & Hrun & Hfl & Hbuf & Heq); [cbn; unfold FLUSH_THRESHOLD; lia |].
  cbn [text_buffer initial_state] in Heq. rewrite app_empty_l in Heq.
  exists fl, buf. split; [|done].
  unfold smart_stream_generator, emitted, try_except.
  rewrite (generator_body_from_stream env req w w1 w2 tools msgs s Htools Hprep Hstream).
  unfold after_open. rewrite (bind_run _ _ _ _ _ _ (iterate_run _ _ _ _ _ _ _ Hrun)).
  by rewrite Hbroken.
Qed.

Lemma broken_stream_loses_the_remainder_witness :
  ∃ flushed lost,
    emitted (smart_stream_generator broken_stream_env calendar_request) tt
      = map FText flushed ++ [FError "Connection error."]
    ∧ concat_str flushed +:+ lost = concat_str (map chunk_text [text_chunk "Hello"])
    ∧ String.length lost ≤ FLUSH_THRESHOLD
    ∧ Forall (λ t, FLUSH_THRESHOLD < String.length t) flushed.
Proof.
  apply (broken_stream_loses_the_remainder broken_stream_env calendar_request tt tt tt
           calendar_tools
           [HSystem system_instruction;
            HRequest "user" (Some "What's on my calendar today?") None]
           {| chunks := [text_chunk "Hello"]; broken := Some "Connection error." |});
    [reflexivity | reflexivity | reflexivity | reflexivity | repeat constructor].
Defined.

End ServerMore.

(** ** Further properties of the dispatcher and of the connection loop *)

Module AgentMore.
Import Agent Samples AgentProps.

(** *** Vocabulary *)

(** Liveness traffic: a ping request or a pong response. *)
Definition liveness (items : list (string * json)) : bool :=
  eq_str (default JNull (items_get items "method")) "ping"
  || eq_str (default JNull (items_get items "result")) "pong".

Definition is_object (v : json) : bool :=
  match v with
  | JObj _ => true
  | _ => false
  end.

Definition unhashable (v : json) : bool :=
  match v with
  | JArr _ | JObj _ => true
  | _ => false
  end.

(** The envelopes on which [handle_message] raises: what is not an
    object, and a [tools/call] request whose params are not an object
    or whose tool name is a list or an object. *)
Definition crashes (data : json) : bool :=
  match data with
  | JObj items =>
      negb (liveness items)
      && eq_str (default JNull (items_get items "method")) "tools/call"
      && match default (JObj []) (items_get items "params") with
         | JObj pitems => unhashable (default JNull (items_get pitems "name"))
         | _ => true
         end
  | _ => true
  end.


Fixpoint count_events (p : event → bool) (trace : list event) : nat :=
  match trace with
  | [] => 0
  | ev :: rest => (if p ev then 1 else 0) + count_events p rest
  end.

Definition is_start (ev : event) : bool :=
  match ev with EvHeartbeatStart => true | _ => false end.

Definition is_cancel (ev : event) : bool :=
  match ev with EvHeartbeatCancel => true | _ => false end.

Definition is_backoff (ev : event) : bool :=
  match ev with EvSleep n => bool_decide (n = BACKOFF) | _ => false end.

Definition established (a : attempt) : bool :=
  match a with Connects _ _ => true | ConnectFails _ => false end.

Section Dispatch.
Context {W : Type} (dumps : json → string) (loads : string → result json).
Implicit Types (st : agent_state W) (data : json).

(** *** What a message can do *)


(** [handle_message] raises exactly on the envelopes of [crashes], and
    then the state is as it was; on liveness traffic it sends nothing
    and runs no handler, even when the envelope also names a method. *)
Theorem crash_and_silence st data :
  match handle_message dumps st data with
  | (Raise _, st1) => crashes data = true ∧ st1 = st
  | (Ok Silent, st1) =>
      crashes data = false ∧ st1 = st ∧ ∃ items, data = JObj items ∧ liveness items = true
  | (Ok (Reply _), _) =>
      crashes data = false ∧ ∃ items, data = JObj items ∧ liveness items = false
  end.
Proof.
  unfold handle_message, crashes.
  destruct data as [| | | | |items]; try done. cbv zeta. fold (liveness items).
  destruct (liveness items) eqn:Hlive; cbn [negb andb].
  { split; [done |]. split; [done |]. by exists items. }
  destruct (eq_str _ "tools/list") eqn:Hlist.
  { split; [|by exists items].
    destruct (default JNull (items_get items "method")) as [| | |m| |]; try done.
    cbn in Hlist |- *. apply String.eqb_eq in Hlist as ->. done. }
  destruct (eq_str _ "tools/call"); [|split; [done | by exists items]].
  destruct (default (JObj []) (items_get items "params")) as [| | | | |pitems]; try done.
  unfold registry_get.
  destruct (default JNull (items_get pitems "name")) as [| | |name| |]; cbn [unhashable];
    try done; try (split; [done | by exists items]).
  destruct (registry_find _ name) as [tool|]; [|split; [done | by exists items]].
  destruct (if blocking tool then _ else _) as [[result|e] w]; (split; [done | by exists items]).
Qed.

Lemma handle_message_effects st data :
  TOOLS_REGISTRY (handle_message dumps st data).2 = TOOLS_REGISTRY st
  ∧ (world (handle_message dumps st data).2 ≠ world st →
     ∃ msg_id name args tool,
       is_tools_call data msg_id name args
       ∧ registry_find (TOOLS_REGISTRY st) name = Some tool).
Proof.
  unfold handle_message.
  destruct data as [| | | | |items]; try done. cbv zeta. fold (liveness items).
  destruct (liveness items) eqn:Hlive; [done |].
  destruct (eq_str _ "tools/list"); [done |].
  destruct (eq_str (default JNull (items_get items "method")) "tools/call") eqn:Hcall; [|done].
  destruct (default (JObj []) (items_get items "params")) as [| | | | |pitems] eqn:Hparams;
    try done.
  unfold registry_get.
  destruct (default JNull (items_get pitems "name")) as [| | |name| |] eqn:Hname; try done.
  destruct (registry_find _ name) as [tool|] eqn:Hfind; [|done].
  assert (Hreq : is_tools_call (JObj items) (default JNull (items_get items "id")) name
                   (default (JObj []) (items_get pitems "arguments"))).
  { exists items, pitems. unfold liveness in Hlive. apply orb_false_iff in Hlive as [_ Hpong].
    split; [done |]. split.
    { destruct (items_get items "method") as [[| | |m| |]|]; try done.
      cbn in Hcall. by apply String.eqb_eq in Hcall as ->. }
    split.
    { intros Hp. rewrite Hp in Hpong. done. }
    split; [done |]. split.
    { destruct (items_get items "params") as [v|]; cbn in Hparams.
      - by subst v.
      - injection Hparams as <-. cbn in Hname. done. }
    split; [|done].
    destruct (items_get pitems "name") as [v|]; cbn in Hname; [by subst v | done]. }
  destruct (if blocking tool then _ else _) as [[result|e] w]; cbn;
    (split; [done |]); intros _; by eexists _, _, _, _.
Qed.

(** The registry is never changed by a message, and the world only by
    a [tools/call] request that names a registered tool. *)
Theorem state_effects st data :
  TOOLS_REGISTRY (handle_message dumps st data).2 = TOOLS_REGISTRY st
  ∧ (world (handle_message dumps st data).2 ≠ world st →
     ∃ msg_id name args tool,
       is_tools_call data msg_id name args
       ∧ registry_find (TOOLS_REGISTRY st) name = Some tool).
Proof. apply handle_message_effects. Qed.

(** *** Invariants of the connection loop *)

Lemma message_loop_registry st (traffic : list inbound) (how : closing) :
  TOOLS_REGISTRY (message_loop dumps loads st traffic how).2 = TOOLS_REGISTRY st.
Proof.
  revert st. induction traffic as [|m rest IH]; intros st; cbn [message_loop].
  - by destruct how.
  - destruct (loads (message m)) as [data|e]; [|done].
    pose proof (proj1 (handle_message_effects st data)) as Hreg.
    destruct (handle_message dumps st data) as [[[|payload]|e] st1]; cbn [snd] in Hreg.
    + by rewrite IH.
    + destruct (send_ok m); [|done].
      specialize (IH st1). destruct (message_loop dumps loads st1 rest how) as [[evs fin] st2].
      cbn [snd] in *. congruence.
    + done.
Qed.

(** However long the agent runs and whatever it receives, its registry
    stays the one it started with. *)
Theorem agent_loop_keeps_registry st (script : list attempt) :
  TOOLS_REGISTRY (agent_loop dumps loads st script).2 = TOOLS_REGISTRY st.
Proof.
  revert st. induction script as [|a script IH]; intros st; [done |].
  cbn [agent_loop].
  assert (Hconn : TOOLS_REGISTRY (connection dumps loads st a).2 = TOOLS_REGISTRY st).
  { destruct a as [e|traffic how]; [done |]. cbn [connection].
    pose proof (message_loop_registry st traffic how) as Hreg.
    destruct (message_loop dumps loads st traffic how) as [[evs fin] st1].
    by destruct fin. }
  destruct (connection dumps loads st a) as [evs st1].
  specialize (IH st1). destruct (agent_loop dumps loads st1 script) as [evs2 st2].
  cbn [snd] in *. congruence.
Qed.

Lemma count_events_app (p : event → bool) (a b : list event) :
  count_events p (a ++ b) = count_events p a + count_events p b.
Proof. induction a as [|ev a IH]; cbn; [done | rewrite IH; lia]. Qed.

Lemma count_events_sends (p : event → bool) (evs : list event) :
  (∀ payload, p (EvSend payload) = false) →
  Forall (λ ev, ∃ payload, ev = EvSend payload) evs →
  count_events p evs = 0.
Proof.
  intros Hp. induction 1 as [|ev evs [payload ->] _ IH]; [done |].
  cbn. by rewrite Hp, IH.
Qed.

Lemma connection_heartbeat st (a : attempt) :
  let trace := (connection dumps loads st a).1 in
  count_events is_start trace = (if established a then 1 else 0)
  ∧ count_events is_cancel trace = (if established a then 1 else 0)
  ∧ count_events is_sleep trace = count_events is_backoff trace
  ∧ count_events is_sleep trace ≤ 1.
Proof.
  destruct a as [e|traffic how]; [by cbn |]. cbn [connection established].
  pose proof (message_loop_sends dumps loads st traffic how) as Hsends.
  destruct (message_loop dumps loads st traffic how) as [[evs fin] st1]. cbn [fst] in Hsends.
  pose proof (count_events_sends is_start evs ltac:(done) Hsends) as H1.
  pose proof (count_events_sends is_cancel evs ltac:(done) Hsends) as H2.
  pose proof (count_events_sends is_sleep evs ltac:(done) Hsends) as H3.
  pose proof (count_events_sends is_backoff evs ltac:(done) Hsends) as H4.
  destruct fin; cbn [fst]; rewrite !count_events_app, H1, H2, H3, H4; cbn;
    rewrite ?bool_decide_eq_true_2 by done; lia.
Qed.

(** Over any run of the loop: a heartbeat task is started once per
    established connection and cancelled once per established
    connection, however the session ends; every sleep of the loop is
    the 5-second backoff, and there is at most one per attempt. *)
Theorem heartbeat_always_cancelled st (script : list attempt) :
  let trace := (agent_loop dumps loads st script).1 in
  count_events is_start trace = length (filter (λ a, established a = true) script)
  ∧ count_events is_cancel trace = count_events is_start trace
  ∧ count_events is_sleep trace = count_events is_backoff trace
  ∧ count_events is_sleep trace ≤ length script.
Proof.
  revert st. induction script as [|a script IH]; intros st; [by cbn |].
  cbn [agent_loop]. pose proof (connection_heartbeat st a) as Hone. cbn zeta in Hone.
  destruct (connection dumps loads st a) as [evs st1]. cbn [fst] in Hone.
  specialize (IH st1). cbn zeta in IH.
  destruct (agent_loop dumps loads st1 script) as [evs2 st2]. cbn [fst] in IH |- *.
  rewrite !count_events_app. destruct Hone as (H1 & H2 & H3 & H4).
  destruct IH as (I1 & I2 & I3 & I4).
  rewrite H1, H2, I1 in *. cbn [length].
  destruct (established a) eqn:Hest.
  - rewrite filter_cons_True by done. cbn [length]. lia.
  - rewrite filter_cons_False by (by rewrite Hest). lia.
Qed.

(** *** A message that does not decode *)

Lemma message_loop_app st (pre rest : list inbound) (how : closing) :
  message_loop dumps loads st (pre ++ rest) how =
    match message_loop dumps loads st pre ServerClose with
    | (evs, Finished, st1) =>
        match message_loop dumps loads st1 rest how with
        | (evs2, fin, st2) => (evs ++ evs2, fin, st2)
        end
    | other => other
    end.
Proof.
  revert st. induction pre as [|m pre IH]; intros st; cbn [List.app message_loop].
  - by destruct (message_loop dumps loads st rest how) as [[evs2 fin] st2].
  - destruct (loads (message m)) as [data|e]; [|done].
    destruct (handle_message dumps st data) as [[[|payload]|e] st1]; [apply IH | | done].
    destruct (send_ok m); [|done].
    rewrite IH.
    destruct (message_loop dumps loads st1 pre ServerClose) as [[evs fin] st2].
    destruct fin; [|done..].
    by destruct (message_loop dumps loads st2 rest how) as [[evs2 fin2] st3].
Qed.

(** A message that does not decode ends the session where it stands:
    what came before it is handled as usual, what comes after it on
    that connection is never handled, and the pass of the loop ends
    with the cancellation of the heartbeat and the backoff. *)
Theorem undecodable_message_ends_session st (pre post : list inbound) (m : inbound)
    (how : closing) (e : string) :
  loads (message m) = Raise e →
  message_loop dumps loads st (pre ++ m :: post) how =
    match message_loop dumps loads st pre ServerClose with
    | (evs, Finished, st1) => (evs, Crashed e, st1)
    | other => other
    end
  ∧ (∀ evs st1,
       message_loop dumps loads st pre ServerClose = (evs, Finished, st1) →
       connection dumps loads st (Connects (pre ++ m :: post) how) =
         ([EvConnect; EvHeartbeatStart] ++ evs
            ++ [EvHeartbeatCancel; EvConnectionError e; EvSleep BACKOFF], st1)).
Proof.
  intros Hbad.
  assert (Hloop : message_loop dumps loads st (pre ++ m :: post) how =
            match message_loop dumps loads st pre ServerClose with
            | (evs, Finished, st1) => (evs, Crashed e, st1)
            | other => other
            end).
  { rewrite message_loop_app.
    destruct (message_loop dumps loads st pre ServerClose) as [[evs fin] st1].
    destruct fin; [|done..]. cbn [message_loop]. rewrite Hbad. by rewrite app_nil_r. }
  split; [exact Hloop |].
  intros evs st1 Hpre. cbn [connection]. by rewrite Hloop, Hpre.
Qed.

End Dispatch.


Lemma undecodable_message_ends_session_witness :
  message_loop show decode laptop
    ([{| message := "call delete_all"; send_ok := true |}]
       ++ {| message := "not json"; send_ok := true |}
       :: [{| message := "call read_emails"; send_ok := true |}]) ServerClose =
    match message_loop show decode laptop
            [{| message := "call delete_all"; send_ok := true |}] ServerClose with
    | (evs, Finished, st1) =>
        (evs, Crashed "Expecting value: line 1 column 1 (char 0)", st1)
    | other => other
    end
  ∧ (∀ evs st1,
       message_loop show decode laptop
         [{| message := "call delete_all"; send_ok := true |}] ServerClose
         = (evs, Finished, st1) →
       connection show decode laptop
         (Connects ([{| message := "call delete_all"; send_ok := true |}]
                      ++ {| message := "not json"; send_ok := true |}
                      :: [{| message := "call read_emails"; send_ok := true |}]) ServerClose) =
         ([EvConnect; EvHeartbeatStart] ++ evs
            ++ [EvHeartbeatCancel;
                EvConnectionError "Expecting value: line 1 column 1 (char 0)";
                EvSleep BACKOFF], st1)).
Proof.
  apply (undecodable_message_ends_session show decode laptop
           [{| message := "call delete_all"; send_ok := true |}]
           [{| message := "call read_emails"; send_ok := true |}]
           {| message := "not json"; send_ok := true |} ServerClose).
  reflexivity.
Defined.

End AgentMore.

(** ** client_agent.py: the tools and the registry *)

Module Tools.
Import Agent.

(** *** Folders *)

(** [str.lower] on one character (ASCII and Latin-1 capitals). *)
Definition lower_char (c : Ascii.ascii) : Ascii.ascii :=
  let n := Ascii.nat_of_ascii c in
  if ((65 <=? n) && (n <=? 90)) || ((192 <=? n) && (n <=? 222) && negb (n =? 215))
  then Ascii.ascii_of_nat (n + 32)
  else c.

Fixpoint lower (s : string) : string :=
  match s with
  | EmptyString => EmptyString
  | String c rest => String (lower_char c) (lower rest)
  end.

Definition folder_mapping : list (string * Z) :=
  [("inbox", 6); ("drafts", 16); ("sent", 5); ("deleted", 3); ("outbox", 4);
   ("calendar", 9); ("contacts", 10); ("junk", 23)]%Z.

Fixpoint mapping_get (mapping : list (string * Z)) (key : string) : option Z :=
  match mapping with
  | [] => None
  | (k, v) :: rest => if String.eqb k key then Some v else mapping_get rest key
  end.

Definition get_folder_id (name : string) : Z :=
  default 6%Z (mapping_get folder_mapping (lower name)).

(** *** Reading a folder *)

(** An item of a folder: its [Class] (0 when it has none) and what
    [parse_email_summary] can read of it. *)
Record folder_item := {
  item_class : Z;
  item_body : com_item;
}.

(** Outlook as seen by [tool_read_emails]: the sorted (and, on request,
    unread-only) items of the default folder with a given id, where
    stepping to the next item may itself raise. *)
Record MailStore := {
  ms_pythoncom : bool;
  ms_CoInitialize : result unit;
  ms_CoUninitialize : result unit;
  ms_items : Z → bool → result (list (result folder_item));
}.

(** [for item in items: ...] with its cap and its filter on the class. *)
Fixpoint read_loop (items : list (result folder_item)) (count item_count : Z)
    (results : list json) : result (list json) :=
  match items with
  | [] => Ok results
  | Raise e :: _ => Raise e
  | Ok item :: rest =>
      if (count <=? item_count)%Z then Ok results
      else if (item_class item =? 43)%Z
      then read_loop rest count (item_count + 1)%Z (results ++ [parse_email_summary (item_body item)])
      else read_loop rest count item_count results
  end.

Definition read_body (store : MailStore) (folder : string) (count : Z) (unread_only : bool)
    : json :=
  match ms_items store (get_folder_id folder) unread_only with
  | Raise e => error_object e
  | Ok items =>
      match read_loop items count 0 [] with
      | Ok results => JArr results
      | Raise e => error_object e
      end
  end.

Definition tool_read_emails (store : MailStore) (folder : string) (count : Z)
    (unread_only : bool) : result json :=
  if negb (ms_pythoncom store) then Ok (error_object "Windows/Outlook required")
  else
    result_bind (ms_CoInitialize store) (λ _,
      let value := read_body store folder count unread_only in
      result_bind (ms_CoUninitialize store) (λ _, Ok value)).

(** *** The calendar *)

(** What the entry of an appointment is built from; the body may be
    [None]. *)
Record event_details := {
  ev_subject : string;
  ev_start : string;
  ev_end : string;
  ev_location : string;
  ev_organizer : string;
  ev_body : option string;
}.

(** A calendar item: its [Start] can be read and compared (with the
    details of its entry, unless reading one of them raises), or it
    cannot. *)
Inductive cal_item :=
| Appointment (start : Z) (details : option event_details)
| NoStart.

(** Times are naive local times in microseconds. *)
Definition DAY : Z := 86400000000.

Record Calendar := {
  cal_pythoncom : bool;
  cal_CoInitialize : result unit;
  cal_CoUninitialize : result unit;
  cal_items : result (list (result cal_item));
  cal_now : Z;
}.

(** [start_dt] and [end_dt] for a range. *)
Definition window (range_str : string) (now : Z) : Z * Z :=
  let start_dt := (now - now `mod` DAY)%Z in
  if String.eqb range_str "tomorrow"
  then ((start_dt + DAY)%Z, (start_dt + DAY + DAY)%Z)
  else if String.eqb range_str "week"
  then (start_dt, (start_dt + 7 * DAY)%Z)
  else (start_dt, (start_dt + DAY)%Z).

Definition calendar_entry (d : event_details) : json :=
  JObj [("subject", JStr (ev_subject d));
        ("start", JStr (ev_start d));
        ("end", JStr (ev_end d));
        ("location", JStr (ev_location d));
        ("organizer", JStr (ev_organizer d));
        ("body", JStr (if truthy (ev_body d)
                       then String.substring 0 200 (text_of (ev_body d))
                       else ""))].

(** [for item in items: try: ... except: continue] *)
Fixpoint calendar_loop (items : list (result cal_item)) (start_dt end_dt : Z)
    (results : list json) : result (list json) :=
  match items with
  | [] => Ok results
  | Raise e :: _ => Raise e
  | Ok NoStart :: rest => calendar_loop rest start_dt end_dt results
  | Ok (Appointment start details) :: rest =>
      if (start_dt <=? start)%Z && (start <? end_dt)%Z
      then
        match details with
        | Some d =>
            if (end_dt <? start)%Z then Ok (results ++ [calendar_entry d])
            else calendar_loop rest start_dt end_dt (results ++ [calendar_entry d])
        | None => calendar_loop rest start_dt end_dt results
        end
      else
        if (end_dt <? start)%Z then Ok results
        else calendar_loop rest start_dt end_dt results
  end.

Definition calendar_body (cal : Calendar) (range_str : string) : json :=
  match cal_items cal with
  | Raise e => error_object e
  | Ok items =>
      match calendar_loop items (window range_str (cal_now cal)).1
              (window range_str (cal_now cal)).2 [] with
      | Ok results => JArr results
      | Raise e => error_object e
      end
  end.

Definition tool_read_calendar (cal : Calendar) (range_str : string) : result json :=
  if negb (cal_pythoncom cal) then Ok (error_object "Windows/Outlook required")
  else
    result_bind (cal_CoInitialize cal) (λ _,
      let value := calendar_body cal range_str in
      result_bind (cal_CoUninitialize cal) (λ _, Ok value)).

(** *** Attachments *)

(** Outlook and the file system as seen by [tool_download_attachment]:
    the file names of the attachments of a message, in order (their
    number is [Attachments.Count], and they are indexed from 1), and
    the operations on files, which act on the world. *)
Record FileOps (W : Type) := {
  fo_pythoncom : bool;
  fo_CoInitialize : result unit;
  fo_CoUninitialize : result unit;
  fo_attachments : string → result (list string);
  fo_exists : string → W → bool;
  fo_makedirs : string → W → result unit * W;
  fo_join : string → string → string;
  fo_save : string → Z → string → W → result unit * W;
}.
Arguments fo_pythoncom {W} _.
Arguments fo_CoInitialize {W} _.
Arguments fo_CoUninitialize {W} _.
Arguments fo_attachments {W} _.
Arguments fo_exists {W} _.
Arguments fo_makedirs {W} _.
Arguments fo_join {W} _.
Arguments fo_save {W} _.

Definition invalid_index (count : Z) : string :=
  "Invalid index. Email has " +:+ pretty count +:+ " attachments.".

(** The body of [with OutlookScope():] in [tool_download_attachment];
    [save_dir] is [ATTACHMENT_SAVE_DIR]. *)
Definition download_body {W} (ops : FileOps W) (save_dir entry_id : string)
    (attachment_index : Z) (w : W) : json * W :=
  match fo_attachments ops entry_id with
  | Raise e => (error_object e, w)
  | Ok names =>
      let count := Z.of_nat (length names) in
      if (attachment_index <? 1)%Z || (count <? attachment_index)%Z
      then (error_object (invalid_index count), w)
      else
        match names !! Z.to_nat (attachment_index - 1) with
        | None => (error_object IndexError, w)
        | Some file_name =>
            match (if fo_exists ops save_dir w then (Ok tt, w) else fo_makedirs ops save_dir w) with
            | (Raise e, w1) => (error_object e, w1)
            | (Ok _, w1) =>
                let file_path := fo_join ops save_dir file_name in
                match fo_save ops entry_id attachment_index file_path w1 with
                | (Raise e, w2) => (error_object e, w2)
                | (Ok _, w2) =>
                    (JObj [("status", JStr "downloaded"); ("path", JStr file_path)], w2)
                end
            end
        end
  end.

Definition tool_download_attachment {W} (ops : FileOps W) (save_dir entry_id : string)
    (attachment_index : Z) (w : W) : result json * W :=
  if negb (fo_pythoncom ops) then (Ok (error_object "Windows/Outlook required"), w)
  else
    match fo_CoInitialize ops with
    | Raise e => (Raise e, w)
    | Ok _ =>
        match download_body ops save_dir entry_id attachment_index w with
        | (value, w1) =>
            match fo_CoUninitialize ops with
            | Raise e => (Raise e, w1)
            | Ok _ => (Ok value, w1)
            end
        end
    end.

(** *** The registry *)

(** The handlers, each standing for the call of its function with the
    keyword arguments of the request. *)
Record handlers (W : Type) := {
  h_read_emails : json → W → result json * W;
  h_search_emails : json → W → result json * W;
  h_get_email_detail : json → W → result json * W;
  h_send_email : json → W → result json * W;
  h_reply_email : json → W → result json * W;
  h_forward_email : json → W → result json * W;
  h_read_calendar : json → W → result json * W;
  h_create_event : json → W → result json * W;
  h_download_attachment : json → W → result json * W;
  h_get_system_info : json → W → result json * W;
}.
Arguments h_read_emails {W} _.
Arguments h_search_emails {W} _.
Arguments h_get_email_detail {W} _.
Arguments h_send_email {W} _.
Arguments h_reply_email {W} _.
Arguments h_forward_email {W} _.
Arguments h_read_calendar {W} _.
Arguments h_create_event {W} _.
Arguments h_download_attachment {W} _.
Arguments h_get_system_info {W} _.

Definition typed (t : string) : json := JObj [("type", JStr t)].

Definition described (t description : string) : json :=
  JObj [("type", JStr t); ("description", JStr description)].

Definition tool_schema (name description : string) (input : list (string * json)) : json :=
  JObj [("name", JStr name); ("description", JStr description);
        ("inputSchema", JObj (("type", JStr "object") :: input))].

(** The literal of [TOOLS_REGISTRY], in source order; [save_dir] is
    [ATTACHMENT_SAVE_DIR]. *)
Definition registry_literal {W} (h : handlers W) (save_dir : string)
    : list (string * tool_entry W) :=
  [("read_emails",
    {| func := h_read_emails h; blocking := true;
       schema :=
         tool_schema "read_emails" "Read recent emails from Outlook folders."
           [("properties",
             JObj [("folder",
                    JObj [("type", JStr "string");
                          ("enum", JArr [JStr "inbox"; JStr "sent"; JStr "drafts"; JStr "deleted"]);
                          ("default", JStr "inbox")]);
                   ("count", JObj [("type", JStr "integer"); ("default", JNum 5)]);
                   ("unread_only", JObj [("type", JStr "boolean"); ("default", JBool false)])])] |});
   ("search_emails",
    {| func := h_search_emails h; blocking := true;
       schema :=
         tool_schema "search_emails" "Search for emails by keyword in subject or body."
           [("properties",
             JObj [("query", typed "string");
                   ("count", JObj [("type", JStr "integer"); ("default", JNum 5)])]);
            ("required", JArr [JStr "query"])] |});
   ("get_email_detail",
    {| func := h_get_email_detail h; blocking := true;
       schema :=
         tool_schema "get_email_detail"
           "Get full body content and attachment list of a specific email."
           [("properties",
             JObj [("entry_id", described "string" "The unique ID of the email")]);
            ("required", JArr [JStr "entry_id"])] |});
   ("send_email",
    {| func := h_send_email h; blocking := true;
       schema :=
         tool_schema "send_email" "Send a new email via Outlook."
           [("properties",
             JObj [("to", described "string" "Semicolon separated email addresses");
                   ("subject", typed "string");
                   ("body", typed "string");
                   ("cc", typed "string");
                   ("attachments",
                    JObj [("type", JStr "array"); ("items", typed "string");
                          ("description", JStr "List of local file paths")])]);
            ("required", JArr [JStr "to"; JStr "subject"; JStr "body"])] |});
   ("reply_email",
    {| func := h_reply_email h; blocking := true;
       schema :=
         tool_schema "reply_email" "Reply to an email."
           [("properties",
             JObj [("entry_id", typed "string");
                   ("body", typed "string");
                   ("reply_all", JObj [("type", JStr "boolean"); ("default", JBool false)])]);
            ("required", JArr [JStr "entry_id"; JStr "body"])] |});
   ("forward_email",
    {| func := h_forward_email h; blocking := true;
       schema :=
         tool_schema "forward_email" "Forward an email to someone."
           [("properties",
             JObj [("entry_id", typed "string");
                   ("to", typed "string");
                   ("body", described "string" "Optional message to add")]);
            ("required", JArr [JStr "entry_id"; JStr "to"])] |});
   ("read_calendar",
    {| func := h_read_calendar h; blocking := true;
       schema :=
         tool_schema "read_calendar" "List calendar events."
           [("properties",
             JObj [("range_str",
                    JObj [("type", JStr "string");
                          ("enum", JArr [JStr "today"; JStr "tomorrow"; JStr "week"]);
                          ("default", JStr "today")])])] |});
   ("create_event",
    {| func := h_create_event h; blocking := true;
       schema :=
         tool_schema "create_event" "Create a calendar appointment."
           [("properties",
             JObj [("subject", typed "string");
                   ("start_time", described "string" "Format: YYYY-MM-DD HH:MM");
                   ("duration_minutes", typed "integer");
                   ("body", typed "string")]);
            ("required", JArr [JStr "subject"; JStr "start_time"; JStr "duration_minutes"])] |});
   ("download_attachment",
    {| func := h_download_attachment h; blocking := true;
       schema :=
         tool_schema "download_attachment" ("Download attachment to " +:+ save_dir)
           [("properties",
             JObj [("entry_id", typed "string");
                   ("attachment_index",
                    described "integer" "1-based index from get_email_detail")]);
            ("required", JArr [JStr "entry_id"; JStr "attachment_index"])] |});
   ("get_laptop_status",
    {| func := h_get_system_info h; blocking := false;
       schema :=
         tool_schema "get_laptop_status" "Get system info." [("properties", JObj [])] |})].

End Tools.

(** ** Properties of the tools and of the registry *)

From Stdlib Require Import Sorted.

Module ToolsProps.
Import Agent Tools Samples.

(** *** Vocabulary *)

(** [v[key]] for an object [v]. *)
Definition field (v : json) (key : string) : option json :=
  match v with
  | JObj items => items_get items key
  | _ => None
  end.

Definition is_mail (it : folder_item) : Prop := item_class it = 43%Z.

#[global] Instance is_mail_dec (it : folder_item) : Decision (is_mail it).
Proof. unfold is_mail. apply _. Defined.

(** The [Start] of the items that have one, in order. *)
Definition starts (its : list cal_item) : list Z :=
  omap (λ it, match it with Appointment start _ => Some start | NoStart => None end) its.

(** The entries of the appointments that start within the window and
    whose details can be read, in order. *)
Definition listed (its : list cal_item) (start_dt end_dt : Z) : list json :=
  omap (λ it,
          match it with
          | Appointment start (Some d) =>
              if (start_dt <=? start)%Z && (start <? end_dt)%Z
              then Some (calendar_entry d)
              else None
          | _ => None
          end) its.

(** *** Email search: which summaries are returned *)

Lemma search_loop_take (n k : nat) (its : list com_item) (acc : list json) :
  search_loop (seq k n) (map Ok its) acc =
    Ok (acc ++ map parse_email_summary (take n (drop k its))).
Proof.
  revert k acc. induction n as [|n IH]; intros k acc; cbn [seq search_loop].
  - by rewrite take_0, app_nil_r.
  - rewrite length_map. destruct (decide (length its ≤ k)) as [Hout|Hin].
    + rewrite drop_ge by done. by rewrite take_nil, app_nil_r.
    + destruct (lookup_lt_is_Some_2 its k ltac:(lia)) as [x Hx].
      rewrite list_lookup_fmap, Hx. cbn [fmap option_fmap option_map].
      rewrite IH, (drop_S its x k Hx). cbn [take map].
      by rewrite <- app_assoc.
Qed.

(** When Outlook answers and every matching item can be read, the
    search returns the summaries of the first min(count, 20) matches,
    in the order Outlook sorted them (all of them when there are
    fewer). *)
Theorem search_returns_first_matches (outlook : Outlook) (query : string) (count : Z)
    (its : list com_item) :
  pythoncom outlook = true →
  CoInitialize outlook = Ok tt →
  CoUninitialize outlook = Ok tt →
  restrict outlook (search_filter query) = Ok (map Ok its) →
  tool_search_emails outlook query count =
    Ok (JArr (map parse_email_summary (take (Z.to_nat (Z.min count 20)) its))).
Proof.
  intros Hcom Henter Hexit Hitems.
  unfold tool_search_emails, search_body, py_range.
  rewrite Hcom, Henter, Hexit, Hitems. cbn [negb result_bind].
  by rewrite search_loop_take, drop_0.
Qed.

Lemma search_returns_first_matches_witness :
  tool_search_emails full_inbox "invoice" 3 =
    Ok (JArr (map parse_email_summary (take (Z.to_nat (Z.min 3 20)) (replicate 25 Unreadable)))).
Proof.
  apply (search_returns_first_matches full_inbox "invoice" 3 (replicate 25 Unreadable));
    reflexivity.
Defined.

(** *** The preview of a summary *)






(** *** Reading a folder: which summaries are returned *)

Lemma read_loop_take (its : list folder_item) (count item_count : Z) (acc : list json) :
  read_loop (map Ok its) count item_count acc =
    Ok (acc ++ map (λ it, parse_email_summary (item_body it))
                 (take (Z.to_nat (count - item_count)) (filter is_mail its))).
Proof.
  revert item_count acc. induction its as [|it its IH]; intros k acc; cbn [map read_loop].
  - by rewrite filter_nil, take_nil, app_nil_r.
  - destruct (Z.leb_spec count k) as [Hfull|Hroom].
    + replace (Z.to_nat (count - k)) with 0 by lia. by rewrite take_0, app_nil_r.
    + destruct (Z.eqb_spec (item_class it) 43) as [Hmail|Hother].
      * rewrite IH, filter_cons_True by done.
        replace (Z.to_nat (count - k)) with (S (Z.to_nat (count - (k + 1)))) by lia.
        cbn [take map]. by rewrite <- app_assoc.
      * rewrite IH, filter_cons_False by done. done.
Qed.

(** A store with six items, two of which are not mail items. *)
Definition mixed_folder : MailStore :=
  {| ms_pythoncom := true;
     ms_CoInitialize := Ok tt;
     ms_CoUninitialize := Ok tt;
     ms_items := λ _ _,
       Ok (map Ok [{| item_class := 43; item_body := Unreadable |};
                   {| item_class := 26; item_body := Unreadable |};
                   {| item_class := 43; item_body := Unreadable |};
                   {| item_class := 53; item_body := Unreadable |};
                   {| item_class := 43; item_body := Unreadable |};
                   {| item_class := 43; item_body := Unreadable |}]) |}.

(** When Outlook answers and every item can be stepped to, reading a
    folder returns the summaries of the first [count] mail items (class
    43), in order; items of another class are skipped and do not count
    towards the cap, and a count that is not positive gives the empty
    list.  Unlike the search, there is no cap of 20. *)
Theorem read_returns_first_mails (store : MailStore) (folder : string) (count : Z)
    (unread_only : bool) (its : list folder_item) :
  ms_pythoncom store = true →
  ms_CoInitialize store = Ok tt →
  ms_CoUninitialize store = Ok tt →
  ms_items store (get_folder_id folder) unread_only = Ok (map Ok its) →
  tool_read_emails store folder count unread_only =
    Ok (JArr (map (λ it, parse_email_summary (item_body it))
                (take (Z.to_nat count) (filter is_mail its)))).
Proof.
  intros Hcom Henter Hexit Hitems.
  unfold tool_read_emails, read_body.
  rewrite Hcom, Henter, Hexit, Hitems. cbn [negb result_bind].
  by rewrite read_loop_take, Z.sub_0_r.
Qed.

Lemma read_returns_first_mails_witness :
  tool_read_emails mixed_folder "Inbox" 3 false =
    Ok (JArr (map (λ it, parse_email_summary (item_body it))
                (take (Z.to_nat 3)
                   (filter is_mail
                      [{| item_class := 43; item_body := Unreadable |};
                       {| item_class := 26; item_body := Unreadable |};
                       {| item_class := 43; item_body := Unreadable |};
                       {| item_class := 53; item_body := Unreadable |};
                       {| item_class := 43; item_body := Unreadable |};
                       {| item_class := 43; item_body := Unreadable |}])))).
Proof.
  apply (read_returns_first_mails mixed_folder "Inbox" 3 false); reflexivity.
Defined.

(** *** The calendar: which appointments are listed *)

Lemma listed_cons (it : cal_item) (its : list cal_item) (start_dt end_dt : Z) :
  listed (it :: its) start_dt end_dt =
    match it with
    | Appointment start (Some d) =>
        if (start_dt <=? start)%Z && (start <? end_dt)%Z
        then calendar_entry d :: listed its start_dt end_dt
        else listed its start_dt end_dt
    | _ => listed its start_dt end_dt
    end.
Proof.
  unfold listed. cbn [omap list_omap]. destruct it as [start [d|]|]; try done.
  by destruct (_ && _).
Qed.

Lemma starts_cons (it : cal_item) (its : list cal_item) :
  starts (it :: its) =
    match it with
    | Appointment start _ => start :: starts its
    | NoStart => starts its
    end.
Proof. unfold starts. cbn [omap list_omap]. by destruct it. Qed.

Lemma listed_none_after (its : list cal_item) (start_dt end_dt : Z) :
  Forall (λ x, (end_dt < x)%Z) (starts its) → listed its start_dt end_dt = [].
Proof.
  induction its as [|it its IH]; [done |].
  rewrite listed_cons, starts_cons. destruct it as [start details|]; [|done].
  intros Hall. apply Forall_cons in Hall as [Hlate Hall].
  destruct (Z.ltb_spec start end_dt); [lia |]. rewrite andb_false_r.
  destruct details; by apply IH.
Qed.

Lemma calendar_loop_sorted (its : list cal_item) (start_dt end_dt : Z) (acc : list json) :
  StronglySorted Z.le (starts its) →
  calendar_loop (map Ok its) start_dt end_dt acc = Ok (acc ++ listed its start_dt end_dt).
Proof.
  revert acc. induction its as [|it its IH]; intros acc Hsorted.
  - cbn. by rewrite app_nil_r.
  - cbn [map calendar_loop]. rewrite listed_cons. rewrite starts_cons in Hsorted.
    destruct it as [start details|]; [|by apply IH].
    apply StronglySorted_inv in Hsorted as [Hrest Hfirst].
    destruct ((start_dt <=? start)%Z && (start <? end_dt)%Z) eqn:Hin.
    + apply andb_true_iff in Hin as [_ Hlt]. apply Z.ltb_lt in Hlt.
      destruct details as [d|].
      * destruct (Z.ltb_spec end_dt start); [lia |].
        rewrite IH by done. by rewrite <- app_assoc.
      * by apply IH.
    + destruct (Z.ltb_spec end_dt start) as [Hlate|Hnot].
      * rewrite listed_none_after.
        -- destruct details; by rewrite app_nil_r.
        -- eapply Forall_impl; [exact Hfirst |]. cbn. intros x Hx. lia.
      * rewrite IH by done. by destruct details.
Qed.

(** A calendar with four appointments sorted by start, the last too
    late for today. *)
Definition small_calendar : Calendar :=
  {| cal_pythoncom := true;
     cal_CoInitialize := Ok tt;
     cal_CoUninitialize := Ok tt;
     cal_now := 3 * DAY + 36000000000;
     cal_items :=
       Ok (map Ok
             [Appointment (2 * DAY + 1) None;
              Appointment (3 * DAY + 32400000000)
                (Some {| ev_subject := "Standup"; ev_start := "09:00"; ev_end := "09:15";
                         ev_location := ""; ev_organizer := "lead"; ev_body := None |});
              NoStart;
              Appointment (4 * DAY) None;
              Appointment (5 * DAY) None]) |}.

(** When Outlook answers, every item can be stepped to and the items
    are sorted by start (as the tool asks of Outlook), the calendar
    tool lists exactly the appointments with start_dt <= Start < end_dt
    whose details can be read, in order: stopping at the first
    appointment that starts after end_dt loses none.  The window starts
    at midnight of today (of tomorrow for "tomorrow") and is one day
    long, seven for "week"; any other range string means today. *)
Theorem calendar_lists_the_window (cal : Calendar) (range_str : string)
    (its : list cal_item) :
  cal_pythoncom cal = true →
  cal_CoInitialize cal = Ok tt →
  cal_CoUninitialize cal = Ok tt →
  cal_items cal = Ok (map Ok its) →
  StronglySorted Z.le (starts its) →
  tool_read_calendar cal range_str =
    Ok (JArr (listed its (window range_str (cal_now cal)).1 (window range_str (cal_now cal)).2))
  ∧ ∃ midnight,
      (midnight ≤ cal_now cal < midnight + DAY)%Z
      ∧ (midnight `mod` DAY = 0)%Z
      ∧ (window range_str (cal_now cal)).1
        = (midnight + (if String.eqb range_str "tomorrow" then DAY else 0))%Z
      ∧ (window range_str (cal_now cal)).2
        = ((window range_str (cal_now cal)).1
           + (if negb (String.eqb range_str "tomorrow") && String.eqb range_str "week"
              then 7 * DAY else DAY))%Z.
Proof.
  intros Hcom Henter Hexit Hitems Hsorted. split.
  - unfold tool_read_calendar, calendar_body.
    rewrite Hcom, Henter, Hexit, Hitems. cbn [negb result_bind].
    by rewrite calendar_loop_sorted.
  - exists (cal_now cal - cal_now cal `mod` DAY)%Z.
    assert (Hday : (0 < DAY)%Z) by (unfold DAY; lia).
    pose proof (Z.mod_pos_bound (cal_now cal) DAY Hday) as Hmod.
    split; [lia |]. split.
    + rewrite Zminus_mod, Zmod_mod, Z.sub_diag. by rewrite Zmod_0_l.
    + unfold window. destruct (String.eqb range_str "tomorrow"); cbn [fst snd negb andb].
      * split; lia.
      * destruct (String.eqb range_str "week"); cbn [fst snd]; split; lia.
Qed.

Lemma calendar_lists_the_window_witness :
  tool_read_calendar small_calendar "today" =
    Ok (JArr (listed [Appointment (2 * DAY + 1) None;
                      Appointment (3 * DAY + 32400000000)
                        (Some {| ev_subject := "Standup"; ev_start := "09:00";
                                 ev_end := "09:15"; ev_location := "";
                                 ev_organizer := "lead"; ev_body := None |});
                      NoStart;
                      Appointment (4 * DAY) None;
                      Appointment (5 * DAY) None]
                (window "today" (cal_now small_calendar)).1
                (window "today" (cal_now small_calendar)).2)).
Proof.
  apply (calendar_lists_the_window small_calendar "today" _ eq_refl eq_refl eq_refl eq_refl).
  unfold starts. cbn. repeat constructor; unfold DAY; lia.
Defined.

Example calendar_today :
  tool_read_calendar small_calendar "today" =
    Ok (JArr [JObj [("subject", JStr "Standup"); ("start", JStr "09:00");
                    ("end", JStr "09:15"); ("location", JStr "");
                    ("organizer", JStr "lead"); ("body", JStr "")]]).
Proof. vm_compute. reflexivity. Qed.

(** *** Attachments: which index is accepted *)

(** A message with two attachments; the world is the list of the paths
    saved so far. *)
Definition two_attachments : FileOps (list string) :=
  {| fo_pythoncom := true;
     fo_CoInitialize := Ok tt;
     fo_CoUninitialize := Ok tt;
     fo_attachments := λ _, Ok ["report.pdf"; "logo.png"];
     fo_exists := λ _ _, true;
     fo_makedirs := λ _ w, (Ok tt, w);
     fo_join := λ dir name, dir +:+ "/" +:+ name;
     fo_save := λ _ _ path w, (Ok tt, path :: w) |}.

(** When Outlook answers for a message with n attachments: an index
    below 1 or above n is refused with an error object that tells n,
    and nothing is created or saved (the world is as it was); an index
    from 1 to n selects the attachment at that 1-based position, and
    when the directory is there (or made) and the save succeeds, the
    result tells the path, which is the save directory joined with the
    file name of that attachment. *)
Theorem download_checks_the_index {W} (ops : FileOps W) (save_dir entry_id : string)
    (attachment_index : Z) (w : W) (names : list string) :
  fo_pythoncom ops = true →
  fo_CoInitialize ops = Ok tt →
  fo_CoUninitialize ops = Ok tt →
  fo_attachments ops entry_id = Ok names →
  ((attachment_index < 1 ∨ Z.of_nat (length names) < attachment_index)%Z →
   tool_download_attachment ops save_dir entry_id attachment_index w =
     (Ok (error_object (invalid_index (Z.of_nat (length names)))), w))
  ∧ ((1 ≤ attachment_index ≤ Z.of_nat (length names))%Z →
     ∃ file_name,
       names !! Z.to_nat (attachment_index - 1) = Some file_name
       ∧ ∀ w1 w2,
           (if fo_exists ops save_dir w then (Ok tt, w) else fo_makedirs ops save_dir w)
             = (Ok tt, w1) →
           fo_save ops entry_id attachment_index (fo_join ops save_dir file_name) w1
             = (Ok tt, w2) →
           tool_download_attachment ops save_dir entry_id attachment_index w =
             (Ok (JObj [("status", JStr "downloaded");
                        ("path", JStr (fo_join ops save_dir file_name))]), w2)).
Proof.
  intros Hcom Henter Hexit Hnames.
  unfold tool_download_attachment, download_body.
  rewrite Hcom, Henter, Hexit, Hnames. cbn [negb]. cbv zeta. split.
  - intros Hout.
    assert (Hcond : (attachment_index <? 1)%Z || (Z.of_nat (length names) <? attachment_index)%Z
                    = true).
    { apply orb_true_iff. destruct Hout; [left | right]; by apply Z.ltb_lt. }
    by rewrite Hcond.
  - intros Hin.
    assert (Hcond : (attachment_index <? 1)%Z || (Z.of_nat (length names) <? attachment_index)%Z
                    = false).
    { apply orb_false_iff. split; apply Z.ltb_ge; lia. }
    rewrite Hcond.
    destruct (lookup_lt_is_Some_2 names (Z.to_nat (attachment_index - 1)) ltac:(lia))
      as [file_name Hname].
    exists file_name. split; [done |]. intros w1 w2 Hdir Hsave.
    by rewrite Hname, Hdir, Hsave.
Qed.

Lemma download_checks_the_index_witness :
  ((3 < 1 ∨ Z.of_nat (length ["report.pdf"; "logo.png"]) < 3)%Z →
   tool_download_attachment two_attachments "Downloads" "msg-1" 3 [] =
     (Ok (error_object (invalid_index (Z.of_nat (length ["report.pdf"; "logo.png"])))), []))
  ∧ ((1 ≤ 3 ≤ Z.of_nat (length ["report.pdf"; "logo.png"]))%Z →
     ∃ file_name,
       ["report.pdf"; "logo.png"] !! Z.to_nat (3 - 1) = Some file_name
       ∧ ∀ w1 w2,
           (if fo_exists two_attachments "Downloads" []
            then (Ok tt, []) else fo_makedirs two_attachments "Downloads" [])
             = (Ok tt, w1) →
           fo_save two_attachments "msg-1" 3 (fo_join two_attachments "Downloads" file_name) w1
             = (Ok tt, w2) →
           tool_download_attachment two_attachments "Downloads" "msg-1" 3 [] =
             (Ok (JObj [("status", JStr "downloaded");
                        ("path", JStr (fo_join two_attachments "Downloads" file_name))]), w2)).
Proof.
  apply (download_checks_the_index two_attachments "Downloads" "msg-1" 3 []
           ["report.pdf"; "logo.png"]); reflexivity.
Defined.

Example download_third_of_two :
  tool_download_attachment two_attachments "Downloads" "msg-1" 3 [] =
    (Ok (error_object "Invalid index. Email has 2 attachments."), []).
Proof. vm_compute. reflexivity. Qed.

Example download_second_of_two :
  tool_download_attachment two_attachments "Downloads" "msg-1" 2 [] =
    (Ok (JObj [("status", JStr "downloaded"); ("path", JStr "Downloads/logo.png")]),
     ["Downloads/logo.png"]).
Proof. vm_compute. reflexivity. Qed.

(** *** The registry: what is advertised can be called *)

(** With the registry of the source, whatever the handlers are: the
    ten names are pairwise distinct, and every descriptor that
    [tools/list] returns carries a name under which the registry holds
    an entry, the entry of that very descriptor.  Only
    [get_laptop_status] is not marked blocking. *)
Theorem advertised_tools_are_callable {W} (h : handlers W) (save_dir : string) :
  NoDup (map fst (registry_literal h save_dir))
  ∧ length (registry_literal h save_dir) = 10
  ∧ (∀ d, d ∈ map (λ t, schema t.2) (registry_literal h save_dir) →
       ∃ name tool,
         field d "name" = Some (JStr name)
         ∧ registry_find (registry_literal h save_dir) name = Some tool
         ∧ schema tool = d)
  ∧ (∀ name tool,
       registry_find (registry_literal h save_dir) name = Some tool →
       blocking tool = negb (String.eqb name "get_laptop_status")).
Proof.
  split; [|split; [done |split]].
  - cbn [registry_literal map fst]. apply (bool_decide_unpack _). by vm_compute.
  - intros d Hd. cbn [registry_literal map snd] in Hd.
    repeat (apply elem_of_cons in Hd as [-> | Hd];
            [eexists _, _; split; [reflexivity |]; split; reflexivity |]).
    by apply elem_of_nil in Hd.
  - intros name tool. cbn [registry_literal registry_find].
    repeat match goal with
           | |- context [String.eqb ?k name] =>
               destruct (String.eqb_spec k name) as [Heq|_];
               [subst name; intros [= <-]; reflexivity |]
           end.
    done.
Qed.

End ToolsProps.
